(** * RFID device telemetry agent: a shallow embedding of
      [rfid_device_client.py] and [ws_receiver.py].

    Everything the program obtains from outside (file system, clock, random
    source, MQTT transport, console, operator interrupt) is read from an
    environment record, so a run of the program is a function of that
    environment.  Log lines, transport calls and sleeps are recorded, in
    program order, in a trace.

    Sensor values are IEEE 754 binary64 numbers, computed with the operations
    of the standard library's [SpecFloat].  Clock readings are kept as their
    exact rational values: the program only truncates a reading to whole
    seconds and compares the difference of two readings with a whole number
    of seconds, and the difference of two readings that lie within a factor
    of two of each other is exact in binary64. *)

From Stdlib Require Import String Ascii List Bool ZArith QArith Qround Qabs Lia Lqa.
From Stdlib Require Import DecimalString DecimalZ DecimalFacts SpecFloat.
Import ListNotations.
Local Open Scope string_scope.
Local Open Scope Z_scope.

(** ** Floating-point numbers

    A Python [float] is a binary64 number: precision 53, largest exponent
    1024, results rounded to the nearest float, ties to the even mantissa. *)

Definition float : Type := spec_float.

Definition prec : Z := 53.
Definition emax : Z := 1024.

Definition fadd : float -> float -> float := SFadd prec emax.
Definition fsub : float -> float -> float := SFsub prec emax.
Definition fmul : float -> float -> float := SFmul prec emax.
Definition fdiv : float -> float -> float := SFdiv prec emax.

(** The float literal of a whole number (exact below 2^53). *)
Definition float_of_Z (z : Z) : float := binary_normalize prec emax z 0 false.

(** The float [k / 2^53]; [random.random()] returns such a float, for a
    53-bit integer [k] drawn by the generator. *)
Definition random_float (k : Z) : float := binary_normalize prec emax k (-53) false.

(** The exact value of a finite float. *)
Definition Q_of_float (x : float) : Q :=
  match x with
  | S754_finite s m e =>
      let v := match e with
               | Z0 => (Zpos m # 1)%Q
               | Zpos p => (Zpos m * 2 ^ Zpos p # 1)%Q
               | Zneg p => (Zpos m # 2 ^ p)%Q
               end in
      if s then (- v)%Q else v
  | _ => 0%Q
  end.

(** The float nearest to the fraction [num / den], as the conversion of a
    decimal numeral to a float yields it; [s] is the sign given to a zero. *)
Definition nearest (s : bool) (num : Z) (den : positive) : float :=
  match num with
  | Z0 => S754_zero s
  | Zpos m => fdiv (S754_finite false m 0) (S754_finite false den 0)
  | Zneg m => fdiv (S754_finite true m 0) (S754_finite false den 0)
  end.

(** ** Configuration constants (module level of [rfid_device_client.py]) *)

Definition ENDPOINT : string := "a3s8ak1t33mfjz-ats.iot.ap-south-1.amazonaws.com".
Definition CLIENT_ID : string := "RFID-Device-01".
Definition TOPIC : string := "smaket/iot/data/" ++ CLIENT_ID.

Definition CERT_DIR : string := "D:\IOTCoreCert".
Definition CA_PATH : string := "D:\IOTCoreCert\AmazonRootCA1.pem".
Definition CERT_PATH : string :=
  "D:\IOTCoreCert\069ea350def9675c00a739d5432d7a37b56cfcd5d8a72781156458a30028e8d7-certificate.pem.crt".
Definition KEY_PATH : string :=
  "D:\IOTCoreCert\069ea350def9675c00a739d5432d7a37b56cfcd5d8a72781156458a30028e8d7-private.pem.key".

Definition CSV_FILE : string := "D:\IOTCoreCert\temperature_log.csv".

Definition TEMP_RANGE : float * float := (float_of_Z 22, float_of_Z 30).
Definition HUMIDITY_RANGE : float * float := (float_of_Z 35, float_of_Z 65).
Definition PUBLISH_INTERVAL : Z := 5.

(** [mqtt.MQTT_ERR_SUCCESS] *)
Definition MQTT_ERR_SUCCESS : Z := 0.

(** ** Data *)

(** The dictionary returned by [generate_sensor_data]. *)
Record SensorData := mkSensorData {
  sd_temperature : float;
  sd_humidity : float
}.

(** The dictionary returned by [create_payload]. *)
Record Payload := mkPayload {
  device_id : string;
  temperature : float;
  humidity : float;
  timestamp : string;
  message_id : string
}.

(** A cell and a row of the CSV file, as handed to [csv.writer.writerow]. *)
Inductive Cell :=
| CStr (s : string)
| CNum (x : float).

Definition Row := list Cell.

(** What the CSV file holds is a sequence of pieces of text, one after the
    other without anything in between: the text of a row with its line
    terminator; the first [n] characters of that text, [n] being positive and
    less than its length, left by a write that failed part-way; or text that
    was in the file before the program started. *)
Inductive Piece :=
| Whole (r : Row)
| Torn (r : Row) (n : nat)
| Foreign (text : string).

(** Python exceptions.  [KeyboardInterrupt] derives from [BaseException]
    only, so [except Exception] does not catch it. *)
Inductive exn :=
| FileNotFoundError (msg : string)
| Exception (msg : string)
| KeyboardInterrupt.

Definition is_Exception (e : exn) : bool :=
  match e with
  | KeyboardInterrupt => false
  | _ => true
  end.

(** [str(e)] *)
Definition exn_str (e : exn) : string :=
  match e with
  | FileNotFoundError m => m
  | Exception m => m
  | KeyboardInterrupt => ""
  end.

(** What an external call answers: a value, or a raised exception. *)
Inductive answer (A : Type) :=
| Ok (a : A)
| Throws (e : exn).
Arguments Ok {A} a.
Arguments Throws {A} e.

(** The events on which the transport's network thread invokes a callback of
    the client: the broker's answer to the CONNECT with its reason code, the
    end of the connection, the acknowledgment of a publish. *)
Inductive Callback :=
| OnConnect (rc : Z)
| OnDisconnect (rc : Z)
| OnPublish (mid : Z).

(** The [rc] argument of [on_connect]: the integer return code of an MQTT 3
    session, or the [ReasonCode] object of an MQTT 5 session. *)
Inductive Rc :=
| RcInt (value : Z)
| ReasonCode (value : Z).

(** The MQTTMessageInfo returned by [client.publish]. *)
Record PublishInfo := mkPublishInfo {
  pi_rc : Z;
  pi_mid : Z
}.

(** ** Trace *)

Inductive Level := DEBUG | INFO | WARNING | ERROR.

(** Arguments of a logging call, kept next to the format string. *)
Inductive Arg :=
| AStr (s : string)
| AInt (z : Z)
| AExn (e : exn)
| AMsg (p : Payload).

Inductive Action :=
| Log (lvl : Level) (fmt : string) (args : list Arg)
| TlsSet (ca cert key : string)
| NetConnect (endpoint : string) (port keepalive : Z)
| LoopStart
| LoopStop
| NetDisconnect
| NetPublish (topic : string) (message : Payload) (qos : Z)
| Sleep (seconds : Q).

(** The calls that reach the network. *)
Definition is_network (a : Action) : bool :=
  match a with
  | NetConnect _ _ _ | NetPublish _ _ _ | NetDisconnect => true
  | _ => false
  end.

Definition is_connect (a : Action) : bool :=
  match a with NetConnect _ _ _ => true | _ => false end.

Definition is_publish (a : Action) : bool :=
  match a with NetPublish _ _ _ => true | _ => false end.

Definition is_sleep (a : Action) : bool :=
  match a with Sleep _ => true | _ => false end.

(** ** Environment *)

(** What happens around one check of the wait loop in [IoTClient.connect]:
    the callbacks delivered since the previous check, the clock reading taken
    by the loop condition, and whether Ctrl-C arrives during the sleep that
    follows. *)
Record Poll := mkPoll {
  p_callbacks : list Callback;
  p_time : Q;
  p_interrupt : bool      (* the operator interrupts the sleep after the check *)
}.

(** What happens around one cycle of the publishing loop. *)
Record CycleEnv := mkCycleEnv {
  ce_callbacks : list Callback;       (* delivered before the cycle publishes *)
  ce_random : answer (float * float); (* the two draws of random.random() *)
  ce_utcnow : answer string;          (* datetime.utcnow().isoformat() *)
  ce_time : Q;                        (* time.time() *)
  ce_randint : Z;                     (* random.randint(1000, 9999) *)
  ce_publish : answer PublishInfo;    (* client.publish(topic, message, qos=1) *)
  ce_open : answer unit;              (* open(CSV_FILE, "a") *)
  ce_write : answer unit;             (* writerow, and the flush when the file is closed *)
  ce_kept : nat;                      (* characters of the row in the file when the write failed *)
  ce_interrupt : bool;                (* Ctrl-C during the sleep that ends the cycle *)
  ce_interrupt_handler : bool         (* Ctrl-C during the sleep of the except handler *)
}.

(** How the set-up of the transport in [IoTClient.connect] goes: the first of
    its three calls that raises, if any.  What follows a call that raised is
    not executed. *)
Inductive Startup :=
| ClientFails (e : exn)       (* mqtt.Client(...) raises *)
| TlsFails (e : exn)          (* client.tls_set(...) raises *)
| ConnectFails (e : exn)      (* client.connect(ENDPOINT, ...) raises *)
| Started.                    (* the three calls return *)

Record Env := mkEnv {
  fs_exists : string -> bool;         (* os.path.exists on the credential paths *)
  fs_listdir : answer (list string);  (* os.listdir of the certificate directory *)
  csv_open : answer unit;             (* open(CSV_FILE, "w") *)
  csv_write : answer unit;            (* writerow of the header, and the flush at close *)
  csv_kept : nat;                     (* characters of the header in the file when the write failed *)
  startup : Startup;
  start_time : Q;                     (* time.time() before the wait loop *)
  polls : nat -> Poll;
  cycles : nat -> CycleEnv
}.

(** The answer of [mqtt.Client(client_id=CLIENT_ID, protocol=mqtt.MQTTv5)]. *)
Definition new_client (env : Env) : answer unit :=
  match startup env with
  | ClientFails e => Throws e
  | _ => Ok tt
  end.

(** The answer of [client.tls_set(...)]. *)
Definition tls_set (env : Env) : answer unit :=
  match startup env with
  | TlsFails e => Throws e
  | _ => Ok tt
  end.

(** The answer of [client.connect(ENDPOINT, port=8883, keepalive=60)]: it
    returns only when the set-up got that far and the call itself did not
    raise. *)
Definition net_connect (env : Env) : answer unit :=
  match startup env with
  | ClientFails e | TlsFails e | ConnectFails e => Throws e
  | Started => Ok tt
  end.

(** ** Program state *)

Record State := mkState {
  csv_file : option (list Piece);  (* content of CSV_FILE, None when it does not exist *)
  is_connected : bool;             (* IoTClient.is_connected *)
  client : bool;                   (* IoTClient.client is not None *)
  iot_client_bound : bool;         (* 'iot_client' in locals() of main *)
  message_count : Z;
  trace : list Action
}.

Definition initial_state (csv : option (list Piece)) : State :=
  mkState csv false false false 0 [].

(** ** A state and exception monad *)

Inductive result (A : Type) :=
| Ret (a : A)
| Raise (e : exn)
| OutOfFuel.       (* the modelled loop is still running *)
Arguments Ret {A} a.
Arguments Raise {A} e.
Arguments OutOfFuel {A}.

Definition M (A : Type) : Type := State -> result A * State.

Definition ret {A} (a : A) : M A := fun s => (Ret a, s).

Definition bind {A B} (m : M A) (k : A -> M B) : M B :=
  fun s =>
    match m s with
    | (Ret a, s') => k a s'
    | (Raise e, s') => (Raise e, s')
    | (OutOfFuel, s') => (OutOfFuel, s')
    end.

Notation "x <- m ;; k" := (bind m (fun x => k))
  (at level 61, m at next level, right associativity).
Notation "m ;; k" := (bind m (fun _ => k))
  (at level 61, right associativity).

Definition raise {A} (e : exn) : M A := fun s => (Raise e, s).

Definition out_of_fuel {A} : M A := fun s => (OutOfFuel, s).

(** [try: m except Exception as e: h e] *)
Definition try_except {A} (m : M A) (h : exn -> M A) : M A :=
  fun s =>
    match m s with
    | (Raise e, s') => if is_Exception e then h e s' else (Raise e, s')
    | r => r
    end.

(** [try: m except KeyboardInterrupt: hk except Exception as e: h e] *)
Definition try_except2 {A} (m : M A) (hk : M A) (h : exn -> M A) : M A :=
  fun s =>
    match m s with
    | (Raise KeyboardInterrupt, s') => hk s'
    | (Raise e, s') => h e s'
    | r => r
    end.

(** [try: m finally: f] *)
Definition try_finally {A} (m : M A) (f : M unit) : M A :=
  fun s =>
    match m s with
    | (Ret a, s') =>
        match f s' with
        | (Ret _, s'') => (Ret a, s'')
        | (Raise e, s'') => (Raise e, s'')
        | (OutOfFuel, s'') => (OutOfFuel, s'')
        end
    | (Raise e, s') =>
        match f s' with
        | (Ret _, s'') => (Raise e, s'')
        | (Raise e', s'') => (Raise e', s'')
        | (OutOfFuel, s'') => (OutOfFuel, s'')
        end
    | (OutOfFuel, s') => (OutOfFuel, s')
    end.

Definition emit (a : Action) : M unit :=
  fun s => (Ret tt,
            mkState (csv_file s) (is_connected s) (client s)
                    (iot_client_bound s) (message_count s) (trace s ++ [a])).

Definition log (lvl : Level) (fmt : string) (args : list Arg) : M unit :=
  emit (Log lvl fmt args).

Definition get_is_connected : M bool := fun s => (Ret (is_connected s), s).

Definition set_is_connected (b : bool) : M unit :=
  fun s => (Ret tt,
            mkState (csv_file s) b (client s)
                    (iot_client_bound s) (message_count s) (trace s)).

Definition get_client : M bool := fun s => (Ret (client s), s).

Definition set_client (b : bool) : M unit :=
  fun s => (Ret tt,
            mkState (csv_file s) (is_connected s) b
                    (iot_client_bound s) (message_count s) (trace s)).

Definition get_iot_client_bound : M bool :=
  fun s => (Ret (iot_client_bound s), s).

Definition set_iot_client_bound (b : bool) : M unit :=
  fun s => (Ret tt,
            mkState (csv_file s) (is_connected s) (client s)
                    b (message_count s) (trace s)).

Definition get_message_count : M Z := fun s => (Ret (message_count s), s).

Definition set_message_count (n : Z) : M unit :=
  fun s => (Ret tt,
            mkState (csv_file s) (is_connected s) (client s)
                    (iot_client_bound s) n (trace s)).

Definition get_csv : M (option (list Piece)) := fun s => (Ret (csv_file s), s).

Definition set_csv (f : option (list Piece)) : M unit :=
  fun s => (Ret tt,
            mkState f (is_connected s) (client s)
                    (iot_client_bound s) (message_count s) (trace s)).

(** An external call: its answer comes from the environment. *)
Definition call {A} (a : answer A) : M A :=
  match a with
  | Ok v => ret v
  | Throws e => raise e
  end.

(** [time.sleep(seconds)]: it returns after the delay, unless the operator
    interrupts it, which raises [KeyboardInterrupt]. *)
Definition sleep (seconds : Q) (interrupted : bool) : M unit :=
  emit (Sleep seconds) ;;
  if interrupted then raise KeyboardInterrupt else ret tt.

(** ** Validation *)

Definition newline : string := String (ascii_of_nat 10) EmptyString.

Definition file_checks : list (string * string) :=
  [ (CA_PATH, "Root CA certificate");
    (CERT_PATH, "Device certificate");
    (KEY_PATH, "Private key") ].

(** [s.endswith(suffix)] *)
Definition endswith (suffix s : string) : bool :=
  let n := String.length s in
  let m := String.length suffix in
  (m <=? n)%nat && String.eqb (substring (n - m) m s) suffix.

(** [file.endswith(('.pem', '.crt', '.key'))] *)
Definition is_cert_file (file : string) : bool :=
  endswith ".pem" file || endswith ".crt" file || endswith ".key" file.

(** The [for path, desc in file_checks] loop of [validate_files]. *)
Fixpoint check_files (env : Env) (checks : list (string * string))
         (missing_files : list string) : M (list string) :=
  match checks with
  | [] => ret missing_files
  | (path, desc) :: rest =>
      if negb (fs_exists env path)
      then check_files env rest (missing_files ++ [desc ++ ": " ++ path])
      else log INFO "Found: %s" [AStr path] ;;
           check_files env rest missing_files
  end.

(** The [for file in os.listdir(...)] loop of [validate_files]. *)
Fixpoint list_cert_files (files : list string) : M unit :=
  match files with
  | [] => ret tt
  | file :: rest =>
      (if is_cert_file file then log INFO "  - %s" [AStr file] else ret tt) ;;
      list_cert_files rest
  end.

Definition missing_files_msg (missing_files : list string) : string :=
  "MISSING FILES:" ++ newline ++ String.concat newline missing_files.

Definition validate_files (env : Env) : M unit :=
  missing_files <- check_files env file_checks [] ;;
  match missing_files with
  | _ :: _ =>
      let error_msg := missing_files_msg missing_files in
      log ERROR error_msg [] ;;
      log INFO "Files in directory:" [] ;;
      files <- call (fs_listdir env) ;;
      list_cert_files files ;;
      raise (FileNotFoundError error_msg)
  | [] => log INFO "All certificate files verified" []
  end.

(** ** The CSV log *)

Definition csv_header : Row :=
  [CStr "timestamp"; CStr "device_id"; CStr "temperature"; CStr "humidity"].

(** The content of the file; nothing when the file does not exist. *)
Definition pieces (f : option (list Piece)) : list Piece :=
  match f with
  | None => []
  | Some l => l
  end.

(** What a write that failed after [kept] characters of the row [r] leaves
    in the file. *)
Definition torn (r : Row) (kept : nat) : list Piece :=
  match kept with
  | O => []
  | S _ => [Torn r kept]
  end.

(** [writer.writerow(r)] on the open file, up to and including the flush
    that leaving the [with] block brings: the text of the row is added at the
    end of the file, or the write raises after [kept] characters of it got
    there. *)
Definition writerow (a : answer unit) (kept : nat) (r : Row) : M unit :=
  f <- get_csv ;;
  match a with
  | Ok _ => set_csv (Some (pieces f ++ [Whole r])%list)
  | Throws e => set_csv (Some (pieces f ++ torn r kept)%list) ;; raise e
  end.

Definition setup_csv (env : Env) : M unit :=
  f <- get_csv ;;
  match f with
  | None =>
      try_except
        (call (csv_open env) ;;
         set_csv (Some []) ;;
         writerow (csv_write env) (csv_kept env) csv_header ;;
         log INFO "Created new CSV file: %s" [AStr CSV_FILE])
        (fun e =>
           log ERROR "Failed to create CSV file: %s" [AExn e] ;;
           raise e)
  | Some _ => log INFO "CSV file already exists: %s" [AStr CSV_FILE]
  end.

(** ** The MQTT client ([class IoTClient]) *)

(** [str(n)] for an integer. *)
Definition str_of_Z (n : Z) : string := NilEmpty.string_of_int (Z.to_int n).

(** The [error_codes] dictionary of [on_connect]. *)
Definition error_codes (rc : Z) : option string :=
  match rc with
  | 1 => Some "Connection refused - incorrect protocol version"
  | 2 => Some "Connection refused - invalid client identifier"
  | 3 => Some "Connection refused - server unavailable"
  | 4 => Some "Connection refused - bad username or password"
  | 5 => Some "Connection refused - not authorised"
  | _ => None
  end.

(** [rc == 0]: an integer is compared as it is; a [ReasonCode] object
    compares its value with the integer. *)
Definition rc_is_zero (rc : Rc) : bool :=
  match rc with
  | RcInt value => value =? 0
  | ReasonCode value => value =? 0
  end.

(** [error_codes.get(rc, f"Unknown error code: {rc}")]: the lookup hashes its
    key; a [ReasonCode] object defines equality but no hash, so the lookup
    raises [TypeError]. *)
Definition error_codes_get (rc : Rc) : M string :=
  match rc with
  | RcInt value =>
      ret match error_codes value with
          | Some m => m
          | None => "Unknown error code: " ++ str_of_Z value
          end
  | ReasonCode _ => raise (Exception "unhashable type: 'ReasonCode'")
  end.

Definition on_connect (rc : Rc) : M unit :=
  if rc_is_zero rc then
    set_is_connected true ;;
    log INFO "Connected to AWS IoT Core" [] ;;
    log INFO "Publishing to topic: %s" [AStr TOPIC]
  else
    set_is_connected false ;;
    error_msg <- error_codes_get rc ;;
    log ERROR "Connection failed: %s" [AStr error_msg].

Definition on_disconnect (rc : Z) : M unit :=
  set_is_connected false ;;
  if negb (rc =? 0) then
    log WARNING "Unexpected disconnection from AWS IoT Core" []
  else
    log INFO "Disconnected from AWS IoT Core" [].

Definition on_publish (mid : Z) : M unit :=
  log DEBUG "Message %s published successfully" [AInt mid].

(** A call of [on_disconnect] with [extra] positional arguments after
    [client, userdata, rc]: the method takes none, so with any the call raises
    [TypeError] before the body runs. *)
Definition call_on_disconnect (rc : Z) (extra : nat) : M unit :=
  match extra with
  | O => on_disconnect rc
  | S _ =>
      raise (Exception "on_disconnect() takes 4 positional arguments but 5 were given")
  end.

(** How the client that [connect] builds with [protocol=mqtt.MQTTv5] invokes
    the callbacks: [on_connect] gets a [ReasonCode] object (and the
    properties, for which it has a parameter); [on_disconnect] gets the
    properties as one argument more; [on_publish] gets the message id. *)
Definition run_callback (cb : Callback) : M unit :=
  match cb with
  | OnConnect rc => on_connect (ReasonCode rc)
  | OnDisconnect rc => call_on_disconnect rc 1
  | OnPublish mid => on_publish mid
  end.

(** A callback runs in the network thread: what it raises stays there and
    never reaches the thread of [main]. *)
Definition in_thread (m : M unit) : M unit :=
  fun s => (Ret tt, snd (m s)).

(** The network thread delivers a batch of callbacks. *)
Fixpoint deliver (cbs : list Callback) : M unit :=
  match cbs with
  | [] => ret tt
  | cb :: rest => in_thread (run_callback cb) ;; deliver rest
  end.

Definition Qlt_bool (x y : Q) : bool := negb (Qle_bool y x).

(** [timeout = 10] and [time.sleep(0.1)] in [connect]. *)
Definition connect_timeout : Q := (10 # 1)%Q.
Definition connect_poll : Q := (1 # 10)%Q.

(** The [while not self.is_connected and (time.time() - start_time) < timeout]
    loop, from check number [i] on; it answers the number of the check at
    which it left. *)
Fixpoint wait_for_connection (fuel : nat) (env : Env) (i : nat) : M nat :=
  match fuel with
  | O => out_of_fuel
  | S fuel' =>
      deliver (p_callbacks (polls env i)) ;;
      c <- get_is_connected ;;
      if negb c && Qlt_bool (p_time (polls env i) - start_time env)%Q connect_timeout
      then sleep connect_poll (p_interrupt (polls env i)) ;;
           wait_for_connection fuel' env (S i)
      else ret i
  end.

Definition connect (fuel : nat) (env : Env) : M bool :=
  try_except
    (call (new_client env) ;;
     set_client true ;;
     log INFO "Configuring TLS with:" [] ;;
     log INFO "  CA: %s" [AStr CA_PATH] ;;
     log INFO "  Cert: %s" [AStr CERT_PATH] ;;
     log INFO "  Key: %s" [AStr KEY_PATH] ;;
     emit (TlsSet CA_PATH CERT_PATH KEY_PATH) ;;
     call (tls_set env) ;;
     log INFO "Connecting to %s..." [AStr ENDPOINT] ;;
     emit (NetConnect ENDPOINT 8883 60) ;;
     call (net_connect env) ;;
     emit LoopStart ;;
     i <- wait_for_connection fuel env 0 ;;
     deliver (p_callbacks (polls env (S i))) ;;
     c <- get_is_connected ;;
     if negb c then raise (Exception "Connection timeout")
     else ret true)
    (fun e =>
       log ERROR "Connection error: %s" [AExn e] ;;
       ret false).

(** [message] is the JSON text of the payload; it is kept as the payload. *)
Definition publish_message (ce : CycleEnv) (topic : string) (message : Payload)
  : M bool :=
  c <- get_is_connected ;;
  if negb c then
    log ERROR "Not connected to AWS IoT Core" [] ;;
    ret false
  else
    try_except
      (emit (NetPublish topic message 1) ;;
       result <- call (ce_publish ce) ;;
       if pi_rc result =? MQTT_ERR_SUCCESS then ret true
       else
         log ERROR "Failed to publish message: MQTT error %s" [AInt (pi_rc result)] ;;
         ret false)
      (fun e =>
         log ERROR "Publish error: %s" [AExn e] ;;
         ret false).

Definition disconnect : M unit :=
  c <- get_client ;;
  if c then
    emit LoopStop ;;
    emit NetDisconnect ;;
    log INFO "MQTT client disconnected" []
  else ret tt.

(** ** Data management *)

(** [random.uniform(a, b)], which is [a + (b - a) * random.random()]; [u] is
    the draw of [random.random()]. *)
Definition uniform (a b u : float) : float := fadd a (fmul (fsub b a) u).

(** Rounding to the nearest integer, ties to the even neighbour. *)
Definition round_half_even (x : Q) : Z :=
  let f := Qfloor x in
  let r := (x - inject_Z f)%Q in
  match (r ?= 1 # 2)%Q with
  | Lt => f
  | Gt => f + 1
  | Eq => if Z.even f then f else f + 1
  end.

(** [round(x, ndigits)] for a float and [ndigits >= 0]: the exact value of
    [x] is rounded to [ndigits] decimals, ties to even, and the decimal
    numeral obtained is converted back to the nearest float.  Infinities and
    NaN round to themselves. *)
Definition py_round (x : float) (ndigits : nat) : float :=
  match x with
  | S754_finite s _ _ =>
      let scale := Z.to_pos (10 ^ Z.of_nat ndigits) in
      nearest s (round_half_even (Q_of_float x * inject_Z (Zpos scale))) scale
  | _ => x
  end.

Definition generate_sensor_data (u_temperature u_humidity : float) : SensorData :=
  let temperature := py_round (uniform (fst TEMP_RANGE) (snd TEMP_RANGE) u_temperature) 2 in
  let humidity := py_round (uniform (fst HUMIDITY_RANGE) (snd HUMIDITY_RANGE) u_humidity) 1 in
  {| sd_temperature := temperature; sd_humidity := humidity |}.

Definition csv_row (data : Payload) : Row :=
  [ CStr (timestamp data); CStr (device_id data);
    CNum (temperature data); CNum (humidity data) ].

(** Opening the file in append mode creates it when it is absent. *)
Definition save_to_csv (ce : CycleEnv) (data : Payload) : M unit :=
  try_except
    (call (ce_open ce) ;;
     f <- get_csv ;;
     set_csv (Some (pieces f)) ;;
     writerow (ce_write ce) (ce_kept ce) (csv_row data))
    (fun e => log ERROR "Failed to write to CSV: %s" [AExn e]).

(** [int(x)] for a float: truncation toward zero. *)
Definition int_of_float (x : Q) : Z := Z.quot (Qnum x) (Zpos (Qden x)).

Definition make_message_id (now : Q) (r : Z) : string :=
  "msg_" ++ str_of_Z (int_of_float now) ++ "_" ++ str_of_Z r.

(** [utcnow_iso] is [datetime.utcnow().isoformat()], [now] is [time.time()]
    and [r] is [random.randint(1000, 9999)]. *)
Definition create_payload (device : string) (sensor_data : SensorData)
           (utcnow_iso : string) (now : Q) (r : Z) : Payload :=
  {| device_id := device;
     temperature := sd_temperature sensor_data;
     humidity := sd_humidity sensor_data;
     timestamp := utcnow_iso ++ "Z";
     message_id := make_message_id now r |}.

(** ** Main *)

(** Lines 260-267 of [main]: publish, and on success count, log and save. *)
Definition submit (ce : CycleEnv) (payload : Payload) : M bool :=
  ok <- publish_message ce TOPIC payload ;;
  (if ok then
     n <- get_message_count ;;
     set_message_count (n + 1) ;;
     log INFO "[%s] Sent: %s" [AInt (n + 1); AMsg payload] ;;
     save_to_csv ce payload
   else
     log WARNING "Failed to publish message" []) ;;
  ret ok.

Inductive Ctl := Continue | Break.

(** The body of [while True] in [main], with its two handlers. *)
Definition cycle (ce : CycleEnv) : M Ctl :=
  deliver (ce_callbacks ce) ;;
  try_except2
    (draws <- call (ce_random ce) ;;
     let sensor_data := generate_sensor_data (fst draws) (snd draws) in
     utcnow_iso <- call (ce_utcnow ce) ;;
     let payload :=
       create_payload CLIENT_ID sensor_data utcnow_iso (ce_time ce) (ce_randint ce) in
     submit ce payload ;;
     sleep (inject_Z PUBLISH_INTERVAL) (ce_interrupt ce) ;;
     ret Continue)
    (log INFO "Stopping publisher..." [] ;;
     ret Break)
    (fun e =>
       log ERROR "Error in main loop: %s" [AExn e] ;;
       sleep (inject_Z PUBLISH_INTERVAL) (ce_interrupt_handler ce) ;;
       ret Continue).

Fixpoint main_loop (fuel : nat) (env : Env) (c : nat) : M unit :=
  match fuel with
  | O => out_of_fuel
  | S fuel' =>
      ctl <- cycle (cycles env c) ;;
      match ctl with
      | Break => ret tt
      | Continue => main_loop fuel' env (S c)
      end
  end.

Definition cleanup : M unit :=
  b <- get_iot_client_bound ;;
  (if b then disconnect else ret tt) ;;
  log INFO "Publisher stopped" [].

Definition main (fuel : nat) (env : Env) : M unit :=
  log INFO "Starting AWS IoT Core Publisher" [] ;;
  try_finally
    (try_except
       (validate_files env ;;
        setup_csv env ;;
        set_iot_client_bound true ;;
        set_client false ;;
        set_is_connected false ;;
        ok <- connect fuel env ;;
        if negb ok then
          log ERROR "Failed to connect to AWS IoT Core" []
        else
          set_message_count 0 ;;
          log INFO "Starting data publishing (interval: %ss)" [AInt PUBLISH_INTERVAL] ;;
          main_loop fuel env 0)
       (fun e => log ERROR "Fatal error: %s" [AExn e]))
    cleanup.

(** ** The WebSocket receiver ([ws_receiver.py]) *)

Module WsReceiver.

Definition WS_URL : string :=
  "wss://8b85tilj50.execute-api.ap-south-1.amazonaws.com/prod_multi/".
Definition DEVICE_ID : string := "RFID-Device-01".

(** The [subscribe_msg] dictionary. *)
Record Subscribe := mkSubscribe {
  action : string;
  sub_device_id : string
}.

(** What the receiver does: the lines it gets onto the console and its calls
    on the connection. *)
Inductive WsAction :=
| PrintConnecting (url : string)
| WsConnect (url : string)
| PrintConnected
| WsSend (msg : Subscribe)
| PrintSubscribed (device : string)
| PrintReceived (msg : string)
| PrintError (e : exn)
| WsClose.


(** The connection attempt, the send, the messages that arrive while the
    connection lasts, and the way the connection ends. *)
Record WsEnv := mkWsEnv {
  ws_connect : answer unit;
  ws_send : answer unit;
  ws_inbound : list string;
  ws_end : answer unit
}.

(** What the calls of [print] answer, in the order in which they are made:
    the line is on the console, or the call raises.  Every line begins with a
    symbol outside ASCII, so on a console that cannot encode it every call
    raises [UnicodeEncodeError]. *)
Definition Console : Type := nat -> answer unit.

(** The [n]-th call of [print], adding [line] to what was done so far. *)
Definition print (console : Console) (n : nat) (line : WsAction) (t : list WsAction)
  : answer (list WsAction) :=
  match console n with
  | Ok _ => Ok (t ++ [line])%list
  | Throws e => Throws e
  end.

(** [except Exception as e: print(...)], the [print] being the [n]-th;
    anything that is not an [Exception], and what that [print] raises,
    propagates. *)
Definition handle (console : Console) (n : nat) (t : list WsAction) (e : exn)
  : list WsAction * option exn :=
  if is_Exception e then
    match print console n (PrintError e) t with
    | Ok t' => (t', None)
    | Throws e' => (t, Some e')
    end
  else (t, Some e).

(** The [async for msg in ws: print(...)] loop, its first [print] being the
    [n]-th; it answers what was done, the number of the next [print], and
    the exception that ended it, if one did. *)
Fixpoint receive (console : Console) (n : nat) (msgs : list string)
         (t : list WsAction) : list WsAction * nat * option exn :=
  match msgs with
  | [] => (t, n, None)
  | msg :: rest =>
      match print console n (PrintReceived msg) t with
      | Ok t' => receive console (S n) rest t'
      | Throws e => (t, S n, Some e)
      end
  end.

(** [main] of the receiver on a given console.  Leaving the [async with]
    block, normally or not, closes the connection. *)
Definition main_on (console : Console) (env : WsEnv) : list WsAction * option exn :=
  match print console 0 (PrintConnecting WS_URL) [] with
  | Throws e => handle console 1 [] e
  | Ok t0 =>
      let t1 := (t0 ++ [WsConnect WS_URL])%list in
      match ws_connect env with
      | Throws e => handle console 1 t1 e
      | Ok _ =>
          match print console 1 PrintConnected t1 with
          | Throws e => handle console 2 (t1 ++ [WsClose])%list e
          | Ok t2 =>
              let subscribe_msg :=
                {| action := "subscribeDevice"; sub_device_id := DEVICE_ID |} in
              let t3 := (t2 ++ [WsSend subscribe_msg])%list in
              match ws_send env with
              | Throws e => handle console 2 (t3 ++ [WsClose])%list e
              | Ok _ =>
                  match print console 2 (PrintSubscribed DEVICE_ID) t3 with
                  | Throws e => handle console 3 (t3 ++ [WsClose])%list e
                  | Ok t4 =>
                      match receive console 3 (ws_inbound env) t4 with
                      | (t5, n, Some e) => handle console n (t5 ++ [WsClose])%list e
                      | (t5, n, None) =>
                          match ws_end env with
                          | Ok _ => ((t5 ++ [WsClose])%list, None)
                          | Throws e => handle console n (t5 ++ [WsClose])%list e
                          end
                      end
                  end
              end
          end
      end
  end.

(** A console that takes every line. *)
Definition plain_console : Console := fun _ => Ok tt.

(** [main] of the receiver on such a console. *)
Definition main (env : WsEnv) : list WsAction * option exn :=
  main_on plain_console env.

End WsReceiver.

(** ** Sample environments *)

Definition all_present : string -> bool := fun _ => true.

(** The draw 0.5 of [random.random()]. *)
Definition half : float := random_float (2 ^ 52).

Definition sample_payload : Payload :=
  create_payload CLIENT_ID (generate_sensor_data half half)
                 "2024-01-01T00:00:00" (1700000000 # 1) 1234.

(** A cycle in which everything works and the broker acknowledges nothing. *)
Definition plain_cycle : CycleEnv :=
  {| ce_callbacks := [];
     ce_random := Ok (half, half);
     ce_utcnow := Ok "2024-01-01T00:00:00";
     ce_time := 1700000000 # 1;
     ce_randint := 1234;
     ce_publish := Ok {| pi_rc := 0; pi_mid := 1 |};
     ce_open := Ok tt;
     ce_write := Ok tt;
     ce_kept := 0;
     ce_interrupt := false;
     ce_interrupt_handler := false |}.

(** The clock advances by a tenth of a second per check of the wait loop. *)
Definition tick (i : nat) : Q := Z.of_nat i # 10.

Definition quiet_polls (i : nat) : Poll :=
  {| p_callbacks := []; p_time := tick i; p_interrupt := false |}.

(** The broker never answers. *)
Definition env_timeout : Env :=
  {| fs_exists := all_present;
     fs_listdir := Ok [];
     csv_open := Ok tt;
     csv_write := Ok tt;
     csv_kept := 0;
     startup := Started;
     start_time := 0;
     polls := quiet_polls;
     cycles := fun _ => plain_cycle |}.

(** The broker answers the CONNECT with reason code 5. *)
Definition env_rejected : Env :=
  {| fs_exists := all_present;
     fs_listdir := Ok [];
     csv_open := Ok tt;
     csv_write := Ok tt;
     csv_kept := 0;
     startup := Started;
     start_time := 0;
     polls := fun i => {| p_callbacks := match i with O => [OnConnect 5] | _ => [] end;
                          p_time := tick i; p_interrupt := false |};
     cycles := fun _ => plain_cycle |}.

(** The TLS handshake fails inside [client.connect]. *)
Definition env_handshake : Env :=
  {| fs_exists := all_present;
     fs_listdir := Ok [];
     csv_open := Ok tt;
     csv_write := Ok tt;
     csv_kept := 0;
     startup := ConnectFails (Exception "handshake failure");
     start_time := 0;
     polls := quiet_polls;
     cycles := fun _ => plain_cycle |}.

(** The broker accepts the connection at the third check. *)
Definition env_online : Env :=
  {| fs_exists := all_present;
     fs_listdir := Ok [];
     csv_open := Ok tt;
     csv_write := Ok tt;
     csv_kept := 0;
     startup := Started;
     start_time := 0;
     polls := fun i => {| p_callbacks := match i with 2%nat => [OnConnect 0] | _ => [] end;
                          p_time := tick i; p_interrupt := false |};
     cycles := fun _ => plain_cycle |}.

(** The device certificate and the private key are absent. *)
Definition env_no_credentials : Env :=
  {| fs_exists := fun p => String.eqb p CA_PATH;
     fs_listdir := Ok ["AmazonRootCA1.pem"; "iot_publisher.log"];
     csv_open := Ok tt;
     csv_write := Ok tt;
     csv_kept := 0;
     startup := Started;
     start_time := 0;
     polls := quiet_polls;
     cycles := fun _ => plain_cycle |}.

(** The client object cannot be built: the constructor of the installed
    transport library refuses the arguments it is given. *)
Definition env_no_client : Env :=
  {| fs_exists := all_present;
     fs_listdir := Ok [];
     csv_open := Ok tt;
     csv_write := Ok tt;
     csv_kept := 0;
     startup := ClientFails (Exception "Unsupported callback API version");
     start_time := 0;
     polls := quiet_polls;
     cycles := fun _ => plain_cycle |}.

(** ** Notions used to state the properties *)

(** The state [s] with the actions [t] added to its trace. *)
Definition add_trace (s : State) (t : list Action) : State :=
  mkState (csv_file s) (is_connected s) (client s)
          (iot_client_bound s) (message_count s) (trace s ++ t).

(** The line of the error message for one credential artifact. *)
Definition missing_line (check : string * string) : string :=
  snd check ++ ": " ++ fst check.

Definition absent (env : Env) (check : string * string) : bool :=
  negb (fs_exists env (fst check)).

(** The artifacts of [checks] that are absent, as lines of the message. *)
Definition missing_in (env : Env) (checks : list (string * string)) : list string :=
  map missing_line (filter (absent env) checks).

Definition missing_of (env : Env) : list string := missing_in env file_checks.

(** The log lines for the artifacts of [checks] that are present. *)
Definition found_in (env : Env) (checks : list (string * string)) : list Action :=
  map (fun check => Log INFO "Found: %s" [AStr (fst check)])
      (filter (fun check => negb (absent env check)) checks).

(** The log lines of the directory listing. *)
Definition listing (files : list string) : list Action :=
  map (fun file => Log INFO "  - %s" [AStr file]) (filter is_cert_file files).

Definition is_log (a : Action) : bool :=
  match a with Log _ _ _ => true | _ => false end.

(** The state [s] with the connection flag set to [b]. *)
Definition set_flag (s : State) (b : bool) : State :=
  mkState (csv_file s) b (client s)
          (iot_client_bound s) (message_count s) (trace s).

(** The connection flag after a callback, from the flag before it. *)
Definition callback_flag (cb : Callback) (b : bool) : bool :=
  match cb with
  | OnConnect rc => rc =? 0
  | OnDisconnect _ => b
  | OnPublish _ => b
  end.

Definition flag_after (cbs : list Callback) (b : bool) : bool :=
  fold_left (fun b cb => callback_flag cb b) cbs b.

(** The log lines a callback writes. *)
Definition callback_log (cb : Callback) : list Action :=
  match cb with
  | OnConnect rc =>
      if rc =? 0 then
        [Log INFO "Connected to AWS IoT Core" [];
         Log INFO "Publishing to topic: %s" [AStr TOPIC]]
      else []
  | OnDisconnect _ => []
  | OnPublish mid => [Log DEBUG "Message %s published successfully" [AInt mid]]
  end.

(** The transport accepts the message: the client is connected and
    [client.publish] answers [MQTT_ERR_SUCCESS]. *)
Definition accepted (ce : CycleEnv) (s : State) : bool :=
  is_connected s &&
  match ce_publish ce with
  | Ok info => pi_rc info =? MQTT_ERR_SUCCESS
  | Throws _ => false
  end.

(** The file after [save_to_csv] worked on it: as it was when it cannot be
    opened; with the row at its end when the row is written; with what the
    failed write left at its end otherwise. *)
Definition saved (ce : CycleEnv) (data : Payload) (f : option (list Piece))
  : option (list Piece) :=
  match ce_open ce with
  | Throws _ => f
  | Ok _ =>
      Some (pieces f ++ match ce_write ce with
                        | Ok _ => [Whole (csv_row data)]
                        | Throws _ => torn (csv_row data) (ce_kept ce)
                        end)%list
  end.

(** The exception that [save_to_csv] meets, if any. *)
Definition save_error (ce : CycleEnv) : option exn :=
  match ce_open ce with
  | Throws e => Some e
  | Ok _ =>
      match ce_write ce with
      | Throws e => Some e
      | Ok _ => None
      end
  end.

(** A connected client with a log that holds the header only. *)
Definition online_state : State :=
  mkState (Some [Whole csv_header]) true true true 0 [].

(** The same client after the connection dropped. *)
Definition offline_state : State :=
  mkState (Some [Whole csv_header]) false true true 0 [].

Definition is_ok {A} (a : answer A) : bool :=
  match a with
  | Ok _ => true
  | Throws _ => false
  end.

(** The external call was cut short by the operator's interrupt. *)
Definition is_interrupt {A} (a : answer A) : bool :=
  match a with
  | Throws KeyboardInterrupt => true
  | _ => false
  end.

(** The operator interrupts the program somewhere in this cycle. *)
Definition interrupted (ce : CycleEnv) : bool :=
  is_interrupt (ce_random ce) || is_interrupt (ce_utcnow ce)
  || is_interrupt (ce_publish ce)
  || is_interrupt (ce_open ce) || is_interrupt (ce_write ce)
  || ce_interrupt ce || ce_interrupt_handler ce.

(** The wait between two cycles. *)
Definition interval_sleep : Action := Sleep (inject_Z PUBLISH_INTERVAL).

Definition is_interval_sleep (a : Action) : bool :=
  match a with
  | Sleep d => Qeq_bool d (inject_Z PUBLISH_INTERVAL)
  | _ => false
  end.

(** A log line at level ERROR or WARNING. *)
Definition is_problem_log (a : Action) : bool :=
  match a with
  | Log ERROR _ _ | Log WARNING _ _ => true
  | _ => false
  end.

(** The cycle started in state [s] fails to produce, build or publish. *)
Definition cycle_failed (ce : CycleEnv) (s : State) : bool :=
  negb (is_ok (ce_random ce) && is_ok (ce_utcnow ce)
        && accepted ce (set_flag s (flag_after (ce_callbacks ce) (is_connected s)))).

(** The list [l] ends with the action [a]. *)
Definition ends_with (a : Action) (l : list Action) : Prop :=
  exists t, l = (t ++ [a])%list.

(** The state [s] with the [client] attribute set or cleared. *)
Definition with_client (s : State) (b : bool) : State :=
  mkState (csv_file s) (is_connected s) b
          (iot_client_bound s) (message_count s) (trace s).

Definition is_log_or_sleep (a : Action) : bool :=
  match a with
  | Log _ _ _ | Sleep _ => true
  | _ => false
  end.

(** The time the wait loop of [connect] sees at check [i]. *)
Definition elapsed (env : Env) (i : nat) : Q :=
  (p_time (polls env i) - start_time env)%Q.

(** The error kinds of the design that concern the connection. *)
Inductive ErrorCategory :=
| HandshakeError
| ConnectTimeout
| BrokerRejected (reason : Z).

(** The state [s] with the CSV file replaced by [f]. *)
Definition with_csv (s : State) (f : option (list Piece)) : State :=
  mkState f (is_connected s) (client s)
          (iot_client_bound s) (message_count s) (trace s).

(** From [s] to [s'] the log file, if it starts with the header, only gained
    content at its end. *)
Definition log_grows (s s' : State) : Prop :=
  forall data, csv_file s = Some (Whole csv_header :: data) ->
               exists more, csv_file s' = Some (Whole csv_header :: data ++ more)%list.

(** From [s] to [s'] no connection was attempted, the client object is the
    same, and the log file only gained content. *)
Definition carries_on (s s' : State) : Prop :=
  client s' = client s
  /\ iot_client_bound s' = iot_client_bound s
  /\ (exists t, trace s' = (trace s ++ t)%list /\ filter is_connect t = [])
  /\ log_grows s s'.

(** The log is there, or can be created with its header. *)
Definition log_ready (env : Env) (csv : option (list Piece)) : Prop :=
  csv = None -> csv_open env = Ok tt /\ csv_write env = Ok tt.

(** The state in which [main] calls [connect], when the credential files are
    in place and the CSV log is ready. *)
Definition client_state (env : Env) (csv : option (list Piece)) : State :=
  {| csv_file := Some match csv with
                      | None => [Whole csv_header]
                      | Some l => l
                      end;
     is_connected := false;
     client := false;
     iot_client_bound := true;
     message_count := 0;
     trace := (Log INFO "Starting AWS IoT Core Publisher" []
               :: found_in env file_checks
               ++ [Log INFO "All certificate files verified" [];
                   match csv with
                   | None => Log INFO "Created new CSV file: %s" [AStr CSV_FILE]
                   | Some _ => Log INFO "CSV file already exists: %s" [AStr CSV_FILE]
                   end])%list |}.

(** What [main] does from the call of [connect] on, cleanup included. *)
Definition main_from_connect (fuel : nat) (env : Env) : M unit :=
  try_finally
    (try_except
       (ok <- connect fuel env ;;
        if negb ok then
          log ERROR "Failed to connect to AWS IoT Core" []
        else
          set_message_count 0 ;;
          log INFO "Starting data publishing (interval: %ss)" [AInt PUBLISH_INTERVAL] ;;
          main_loop fuel env 0)
       (fun e => log ERROR "Fatal error: %s" [AExn e]))
    cleanup.

(** Whatever state the computation [m] starts in, the state it leaves is
    related to it by [R]. *)
Definition respects (R : State -> State -> Prop) {A} (m : M A) : Prop :=
  forall s, R s (snd (m s)).




(** A console that cannot encode the symbols of the receiver's lines. *)
Definition ascii_console : WsReceiver.Console :=
  fun _ => Throws (Exception "'charmap' codec can't encode character").

Definition is_nil {A} (l : list A) : bool :=
  match l with
  | [] => true
  | _ :: _ => false
  end.

(** Reading a decimal numeral back. *)
Definition Z_of_str (s : string) : option Z :=
  option_map Z.of_int (NilEmpty.int_of_string s).

Definition is_digit (c : ascii) : bool :=
  (48 <=? nat_of_ascii c)%nat && (nat_of_ascii c <=? 57)%nat.

(** The string consists of exactly four decimal digits. *)
Definition four_digits (s : string) : bool :=
  match s with
  | String a (String b (String c (String d EmptyString))) =>
      is_digit a && is_digit b && is_digit c && is_digit d
  | _ => false
  end.

(** The character [c] occurs in [s]. *)
Fixpoint has_char (c : ascii) (s : string) : bool :=
  match s with
  | EmptyString => false
  | String a rest => Ascii.eqb a c || has_char c rest
  end.

(** What identifies a message id: the whole epoch second and the random
    discriminator. *)
Definition id_key (input : Q * Z) : Z * Z :=
  (int_of_float (fst input), snd input).

Definition id_of (input : Q * Z) : string :=
  make_message_id (fst input) (snd input).

(** Ten thousand events: two within the same second that draw the same
    discriminator, then one every five seconds. *)
Definition burst : list (Q * Z) :=
  ((1700000000 # 1)%Q, 1234)
  :: ((3400000001 # 2)%Q, 1234)
  :: map (fun i => (inject_Z (1700000005 + 5 * Z.of_nat i),
                    1000 + Z.of_nat i mod 9000))
         (seq 0 (Z.to_nat 9998)).

(** The log line that counts a message as sent. *)
Definition is_sent_log (a : Action) : bool :=
  match a with
  | Log INFO fmt _ => String.eqb fmt "[%s] Sent: %s"
  | _ => false
  end.

(** A float is finite and its value lies between [lo] and [hi]. *)
Definition within (lo hi : Q) (x : float) : Prop :=
  match x with
  | S754_finite _ _ _ => (lo <= Q_of_float x <= hi)%Q
  | S754_zero _ => (lo <= 0 <= hi)%Q
  | _ => False
  end.

Definition within_bool (lo hi : Q) (x : float) : bool :=
  match x with
  | S754_finite _ _ _ => Qle_bool lo (Q_of_float x) && Qle_bool (Q_of_float x) hi
  | S754_zero _ => Qle_bool lo 0 && Qle_bool 0 hi
  | _ => false
  end.

(** The float [x] is as close to the fraction [num / den] as [bound]. *)
Definition close_to (bound : Q) (num : Z) (den : positive) (x : float) : bool :=
  Qle_bool (Qabs (Q_of_float x - (num # den))) bound.

(** A draw of [random.random()]: a float in [0, 1). *)
Definition unit_draw (u : float) : Prop := within 0 1 u /\ (Q_of_float u < 1)%Q.

(** The float is zero or positive, with a value between two whole numbers. *)
Definition float_between (lo hi : Z) (x : float) : Prop :=
  match x with
  | S754_zero _ => lo <= 0 <= hi
  | S754_finite false m e => e <= 0 /\ lo * 2 ^ (- e) <= Zpos m <= hi * 2 ^ (- e)
  | _ => False
  end.

(** Nothing has been shifted out of the mantissa. *)
Definition exact_record (mrs : shr_record) : Prop :=
  shr_r mrs = false /\ shr_s mrs = false.

(** The last step of rounding a positive number: a mantissa that has grown
    to 2^53 is brought back to 53 bits. *)
Definition finish (q e : Z) : float :=
  let '(mrs, e') := shr_fexp prec emax q e loc_Exact in
  match shr_m mrs with
  | Z0 => S754_zero false
  | Zpos m => if e' <=? emax - prec then S754_finite false m e' else S754_infinity false
  | Zneg _ => S754_nan
  end.

(** The mantissa of a float, as a number of units in its last place. *)
Definition mantissa (x : float) : Z :=
  match x with
  | S754_finite _ m _ => Zpos m
  | _ => 0
  end.

(** ** Notions used for the further properties *)

(** The log file cannot be opened for writing. *)
Definition env_csv_denied : Env :=
  {| fs_exists := all_present;
     fs_listdir := Ok [];
     csv_open := Throws (Exception "Permission denied");
     csv_write := Ok tt;
     csv_kept := 0;
     startup := Started;
     start_time := 0;
     polls := quiet_polls;
     cycles := fun _ => plain_cycle |}.

(** The log file is created, but the disk takes nothing of the header. *)
Definition env_disk_full : Env :=
  {| fs_exists := all_present;
     fs_listdir := Ok [];
     csv_open := Ok tt;
     csv_write := Throws (Exception "No space left on device");
     csv_kept := 0;
     startup := Started;
     start_time := 0;
     polls := quiet_polls;
     cycles := fun _ => plain_cycle |}.

(** The certificate file cannot be loaded by [tls_set]. *)
Definition env_bad_cert : Env :=
  {| fs_exists := all_present;
     fs_listdir := Ok [];
     csv_open := Ok tt;
     csv_write := Ok tt;
     csv_kept := 0;
     startup := TlsFails (Exception "PEM lib");
     start_time := 0;
     polls := quiet_polls;
     cycles := fun _ => plain_cycle |}.

(** The transport calls of a trace: everything but log lines and sleeps. *)
Definition is_transport (a : Action) : bool := negb (is_log_or_sleep a).

(** The messages the receiver printed, and the messages it sent. *)
Definition ws_received (t : list WsReceiver.WsAction) : list string :=
  flat_map (fun a => match a with
                     | WsReceiver.PrintReceived msg => [msg]
                     | _ => []
                     end) t.

Definition ws_sent (t : list WsReceiver.WsAction) : list WsReceiver.Subscribe :=
  flat_map (fun a => match a with
                     | WsReceiver.WsSend msg => [msg]
                     | _ => []
                     end) t.

Definition is_ws_close (a : WsReceiver.WsAction) : bool :=
  match a with WsReceiver.WsClose => true | _ => false end.

(** Two messages arrive, then the server closes the connection abnormally. *)
Definition ws_two_messages : WsReceiver.WsEnv :=
  {| WsReceiver.ws_connect := Ok tt;
     WsReceiver.ws_send := Ok tt;
     WsReceiver.ws_inbound := ["first"; "second"];
     WsReceiver.ws_end := Throws (Exception "no close frame received") |}.

(** From [s] to [s'] only the connection flag changed and only log lines and
    sleeps were added to the trace. *)
Definition inert (s s' : State) : Prop :=
  exists b t, s' = add_trace (set_flag s b) t
              /\ forallb is_log_or_sleep t = true.

(** The payloads handed to the transport's publish, in order. *)
Definition published (t : list Action) : list Payload :=
  flat_map (fun a => match a with
                     | NetPublish _ message _ => [message]
                     | _ => []
                     end) t.

(** The piece is the row of the payload [p], whole or cut short. *)
Definition piece_of (p : Payload) (pc : Piece) : Prop :=
  pc = Whole (csv_row p) \/ exists n, pc = Torn (csv_row p) n.

(** Book-keeping from [s] to [s']: what the log gained stands at its end and
    consists of rows, whole or cut short, of payloads that were handed to the
    transport in between; there are at most as many of them as the message
    counter grew, which grew by at most the number of publish calls; and a
    log that was there is still there. *)
Definition ledger (s s' : State) : Prop :=
  exists t ps,
    trace s' = (trace s ++ t)%list
    /\ pieces (csv_file s') = (pieces (csv_file s) ++ ps)%list
    /\ (csv_file s' = None -> csv_file s = None)
    /\ Forall (fun pc => exists p, In p (published t) /\ piece_of p pc) ps
    /\ Z.of_nat (length ps) <= message_count s' - message_count s
       <= Z.of_nat (length (published t)).

(** The payload a cycle builds from its two draws and its timestamp. *)
Definition cycle_payload (ce : CycleEnv) (draws : float * float) (utcnow_iso : string)
  : Payload :=
  create_payload CLIENT_ID (generate_sensor_data (fst draws) (snd draws))
                 utcnow_iso (ce_time ce) (ce_randint ce).

(** The message id a cycle gives to its event. *)
Definition cycle_id (ce : CycleEnv) : string :=
  make_message_id (ce_time ce) (ce_randint ce).

(** One reading every five seconds, each publish acknowledged in the cycle
    after it; the broker accepts the connection at the first check. *)
Definition env_ticking : Env :=
  {| fs_exists := all_present;
     fs_listdir := Ok [];
     csv_open := Ok tt;
     csv_write := Ok tt;
     csv_kept := 0;
     startup := Started;
     start_time := 0;
     polls := fun i => {| p_callbacks := match i with O => [OnConnect 0] | _ => [] end;
                          p_time := tick i; p_interrupt := false |};
     cycles := fun c =>
       {| ce_callbacks := match c with O => [] | S c' => [OnPublish (Z.of_nat c')] end;
          ce_random := Ok (half, half);
          ce_utcnow := Ok "2024-01-01T00:00:00";
          ce_time := inject_Z (1700000000 + 5 * Z.of_nat c);
          ce_randint := 1234;
          ce_publish := Ok {| pi_rc := 0; pi_mid := Z.of_nat c |};
          ce_open := Ok tt;
          ce_write := Ok tt;
          ce_kept := 0;
          ce_interrupt := false;
          ce_interrupt_handler := false |} |}.

(** From [s] to [s'] an existing log kept its content, in place, and gained
    rows of payloads only, whole or cut short. *)
Definition log_kept (s s' : State) : Prop :=
  forall l, csv_file s = Some l ->
            exists ps, csv_file s' = Some (l ++ ps)%list
                       /\ Forall (fun pc => exists p, piece_of p pc) ps.

(** The event of a cycle in which reading and timestamp are obtained. *)
Definition cycle_event (ce : CycleEnv) : option Payload :=
  match ce_random ce, ce_utcnow ce with
  | Ok draws, Ok utcnow_iso => Some (cycle_payload ce draws utcnow_iso)
  | _, _ => None
  end.

(** The events of the cycles [c], ..., [c + n - 1]. *)
Definition events (env : Env) (c n : nat) : list Payload :=
  flat_map (fun k => match cycle_event (cycles env k) with
                     | Some p => [p]
                     | None => []
                     end) (seq c n).

(** Nothing goes wrong in the cycle: the callbacks that arrive (such as the
    acknowledgments of earlier publishes) leave a connected client connected,
    the reading and the timestamp are obtained, the transport accepts the
    message, the row is written, and the operator does not interrupt. *)
Definition clean (ce : CycleEnv) : bool :=
  flag_after (ce_callbacks ce) true
  && is_ok (ce_random ce) && is_ok (ce_utcnow ce)
  && match ce_publish ce with
     | Ok info => pi_rc info =? MQTT_ERR_SUCCESS
     | Throws _ => false
     end
  && is_ok (ce_open ce) && is_ok (ce_write ce)
  && negb (ce_interrupt ce).

(** The disk is full in a cycle that is fine otherwise: the file is opened,
    and the write fails after ten characters of the row. *)
Definition disk_full_cycle : CycleEnv :=
  {| ce_callbacks := [];
     ce_random := Ok (half, half);
     ce_utcnow := Ok "2024-01-01T00:00:00";
     ce_time := 1700000000 # 1;
     ce_randint := 1234;
     ce_publish := Ok {| pi_rc := 0; pi_mid := 1 |};
     ce_open := Ok tt;
     ce_write := Throws (Exception "No space left on device");
     ce_kept := 10;
     ce_interrupt := false;
     ce_interrupt_handler := false |}.

(** The last reason code that a batch of callbacks hands to [on_connect]. *)
Definition last_connect (cbs : list Callback) : option Z :=
  fold_left (fun last cb => match cb with
                            | OnConnect rc => Some rc
                            | _ => last
                            end) cbs None.

(** * Properties *)

Local Open Scope list_scope.

(** ** The monad *)

Lemma add_trace_nil s : add_trace s [] = s.
Proof. destruct s; unfold add_trace; simpl. now rewrite List.app_nil_r. Qed.

Lemma add_trace_app s t u : add_trace (add_trace s t) u = add_trace s (t ++ u).
Proof. unfold add_trace; simpl. now rewrite List.app_assoc. Qed.

Lemma emit_eq a s : emit a s = (Ret tt, add_trace s [a]).
Proof. reflexivity. Qed.

Lemma log_eq lvl fmt args s : log lvl fmt args s = (Ret tt, add_trace s [Log lvl fmt args]).
Proof. reflexivity. Qed.

(** Runs a straight-line piece of monadic code on the state at hand. *)
Ltac mrun :=
  unfold bind, ret, raise, out_of_fuel, try_except, try_except2, try_finally,
         log, emit, call, get_is_connected, set_is_connected, get_client,
         set_client, get_iot_client_bound, set_iot_client_bound,
         get_message_count, set_message_count, get_csv, set_csv, sleep,
         add_trace, set_flag, with_csv;
  cbn;
  rewrite <- ?List.app_assoc;
  cbn [app].

(** ** Validation of the credential files *)

Lemma bind_ret {A B} (m : M A) (k : A -> M B) s a s' :
  m s = (Ret a, s') -> bind m k s = k a s'.
Proof. unfold bind. now intros ->. Qed.

Lemma bind_raise {A B} (m : M A) (k : A -> M B) s e s' :
  m s = (Raise e, s') -> bind m k s = (Raise e, s').
Proof. unfold bind. now intros ->. Qed.

Lemma bind_out_of_fuel {A B} (m : M A) (k : A -> M B) s s' :
  m s = (OutOfFuel, s') -> bind m k s = (OutOfFuel, s').
Proof. unfold bind. now intros ->. Qed.

Lemma check_files_eq env checks acc s :
  check_files env checks acc s
  = (Ret (acc ++ missing_in env checks), add_trace s (found_in env checks)).
Proof.
  revert acc s. induction checks as [|[path desc] rest IH]; intros acc s.
  - cbn. now rewrite List.app_nil_r, add_trace_nil.
  - cbn [check_files]. unfold missing_in, found_in, absent in *.
    cbn [filter map fst snd]. destruct (fs_exists env path); cbn [negb filter map].
    + rewrite (bind_ret _ _ _ _ _ (log_eq _ _ _ _)), IH, add_trace_app.
      reflexivity.
    + rewrite IH, <- List.app_assoc. reflexivity.
Qed.

Lemma list_cert_files_eq files s :
  list_cert_files files s = (Ret tt, add_trace s (listing files)).
Proof.
  revert s. induction files as [|file rest IH]; intros s.
  - cbn. now rewrite add_trace_nil.
  - cbn [list_cert_files]. unfold listing in *. cbn [filter].
    destruct (is_cert_file file); cbn [map].
    + rewrite (bind_ret _ _ _ _ _ (log_eq _ _ _ _)), IH, add_trace_app.
      reflexivity.
    + rewrite (bind_ret (ret tt) _ s tt s eq_refl), IH. reflexivity.
Qed.

(** What [validate_files] does, case by case. *)
Lemma validate_files_eq env s :
  validate_files env s =
  match missing_of env with
  | [] => (Ret tt,
           add_trace s (found_in env file_checks
                        ++ [Log INFO "All certificate files verified" []]))
  | _ :: _ =>
      let error_msg := missing_files_msg (missing_of env) in
      let t := found_in env file_checks
               ++ [Log ERROR error_msg []; Log INFO "Files in directory:" []] in
      match fs_listdir env with
      | Ok files => (Raise (FileNotFoundError error_msg),
                     add_trace s (t ++ listing files))
      | Throws e => (Raise e, add_trace s t)
      end
  end.
Proof.
  unfold validate_files.
  rewrite (bind_ret _ _ _ _ _ (check_files_eq _ _ _ _)). cbn [app].
  fold (missing_of env). destruct (missing_of env) as [|m ms].
  - rewrite log_eq, add_trace_app. reflexivity.
  - cbv zeta.
    rewrite (bind_ret _ _ _ _ _ (log_eq _ _ _ _)),
            (bind_ret _ _ _ _ _ (log_eq _ _ _ _)), !add_trace_app.
    destruct (fs_listdir env) as [files|e]; cbn [call].
    + rewrite (bind_ret (ret files) _ _ files _ eq_refl).
      rewrite (bind_ret _ _ _ _ _ (list_cert_files_eq _ _)).
      unfold raise. rewrite add_trace_app, <- ?List.app_assoc. reflexivity.
    + rewrite (bind_raise (raise e) _ _ e _ eq_refl). reflexivity.
Qed.

Lemma try_except_ret {A} (m : M A) h s a s' :
  m s = (Ret a, s') -> try_except m h s = (Ret a, s').
Proof. unfold try_except. now intros ->. Qed.

Lemma try_except_caught {A} (m : M A) h s e s' :
  m s = (Raise e, s') -> is_Exception e = true -> try_except m h s = h e s'.
Proof. unfold try_except. now intros -> ->. Qed.

Lemma try_except_passed {A} (m : M A) h s e s' :
  m s = (Raise e, s') -> is_Exception e = false ->
  try_except m h s = (Raise e, s').
Proof. unfold try_except. now intros -> ->. Qed.

Lemma try_except_out_of_fuel {A} (m : M A) h s s' :
  m s = (OutOfFuel, s') -> try_except m h s = (OutOfFuel, s').
Proof. unfold try_except. now intros ->. Qed.

Lemma forallb_is_log_found env checks : forallb is_log (found_in env checks) = true.
Proof.
  unfold found_in. induction (filter _ checks) as [|c l IH]; cbn; auto.
Qed.

Lemma forallb_is_log_listing files : forallb is_log (listing files) = true.
Proof.
  unfold listing. induction (filter _ files) as [|c l IH]; cbn; auto.
Qed.

Lemma missing_in_complete env checks check :
  In check checks -> fs_exists env (fst check) = false ->
  In (missing_line check) (missing_in env checks).
Proof.
  intros Hin Hex. unfold missing_in. apply in_map, filter_In. split; trivial.
  unfold absent. now rewrite Hex.
Qed.

(** What [main] does when a credential file is absent. *)
Lemma main_missing_eq fuel env s :
  missing_of env <> [] ->
  main fuel env s =
  let error_msg := missing_files_msg (missing_of env) in
  let t := Log INFO "Starting AWS IoT Core Publisher" [] :: found_in env file_checks
           ++ [Log ERROR error_msg []; Log INFO "Files in directory:" []] in
  let stop (b : bool) :=
    (if b then [LoopStop; NetDisconnect; Log INFO "MQTT client disconnected" []]
     else []) ++ [Log INFO "Publisher stopped" []] in
  let bound := iot_client_bound s && client s in
  match fs_listdir env with
  | Ok files =>
      (Ret tt,
       add_trace s (t ++ listing files
                    ++ [Log ERROR "Fatal error: %s" [AExn (FileNotFoundError error_msg)]]
                    ++ stop bound))
  | Throws e =>
      if is_Exception e
      then (Ret tt, add_trace s (t ++ [Log ERROR "Fatal error: %s" [AExn e]] ++ stop bound))
      else (Raise e, add_trace s (t ++ stop bound))
  end.
Proof.
  intros Hmiss. unfold main.
  rewrite (bind_ret _ _ _ _ _ (log_eq _ _ _ _)).
  unfold try_finally, try_except at 1, bind at 1.
  rewrite validate_files_eq.
  destruct (missing_of env) as [|m ms] eqn:E; [congruence|]. cbv zeta.
  unfold cleanup, disconnect, bind, get_iot_client_bound, get_client, ret, log, emit.
  destruct s as [csv conn cl bnd cnt tr]. unfold add_trace. cbn.
  destruct (fs_listdir env) as [files|[msg|msg|]]; cbn;
    destruct bnd, cl; cbn; rewrite <- ?List.app_assoc; cbn; reflexivity.
Qed.

Lemma forallb_app_true {A} (f : A -> bool) l1 l2 :
  forallb f l1 = true -> forallb f l2 = true -> forallb f (l1 ++ l2) = true.
Proof. intros H1 H2. rewrite forallb_app, H1, H2. reflexivity. Qed.

(** The lines of the error message, artifact by artifact. *)
Lemma missing_of_eq env :
  missing_of env
  = (if fs_exists env CA_PATH then []
     else [("Root CA certificate: " ++ CA_PATH)%string])
    ++ (if fs_exists env CERT_PATH then []
        else [("Device certificate: " ++ CERT_PATH)%string])
    ++ (if fs_exists env KEY_PATH then []
        else [("Private key: " ++ KEY_PATH)%string]).
Proof.
  unfold missing_of, missing_in, absent. cbn [file_checks filter fst].
  destruct (fs_exists env CA_PATH), (fs_exists env CERT_PATH),
    (fs_exists env KEY_PATH); reflexivity.
Qed.

Lemma found_in_eq env :
  found_in env file_checks
  = (if fs_exists env CA_PATH then [Log INFO "Found: %s" [AStr CA_PATH]] else [])
    ++ (if fs_exists env CERT_PATH then [Log INFO "Found: %s" [AStr CERT_PATH]] else [])
    ++ (if fs_exists env KEY_PATH then [Log INFO "Found: %s" [AStr KEY_PATH]] else []).
Proof.
  unfold found_in, absent. cbn [file_checks filter fst].
  destruct (fs_exists env CA_PATH), (fs_exists env CERT_PATH),
    (fs_exists env KEY_PATH); reflexivity.
Qed.

(** C4.  When any of the three credential files (root CA at [CA_PATH], device
    certificate at [CERT_PATH], private key at [KEY_PATH]) is absent, [main]
    stops after validation.  It has looked at all three paths: each one that
    exists has its "Found" line.  It has logged one error whose text is the
    heading "MISSING FILES:" followed by one line, description and path, for
    every absent file, in the order root CA, certificate, key; the raised
    [FileNotFoundError] carries the same text and is logged as the fatal
    error.  The whole trace consists of log lines, so neither TLS setup nor
    any network call was attempted, and the CSV log was not touched. *)
Theorem missing_credentials_halt_before_network fuel env csv :
  fs_exists env CA_PATH = false \/ fs_exists env CERT_PATH = false
  \/ fs_exists env KEY_PATH = false ->
  let out := main fuel env (initial_state csv) in
  let nl := String "010" "" in
  let error_msg :=
    ("MISSING FILES:" ++ nl
     ++ String.concat nl
          ((if fs_exists env CA_PATH then []
            else [("Root CA certificate: " ++ CA_PATH)%string])
           ++ (if fs_exists env CERT_PATH then []
               else [("Device certificate: " ++ CERT_PATH)%string])
           ++ (if fs_exists env KEY_PATH then []
               else [("Private key: " ++ KEY_PATH)%string]))%list)%string in
  (fst out = Ret tt \/ fst out = Raise KeyboardInterrupt)
  /\ In (Log ERROR error_msg []) (trace (snd out))
  /\ (forall path, In path [CA_PATH; CERT_PATH; KEY_PATH] ->
        fs_exists env path = true ->
        In (Log INFO "Found: %s" [AStr path]) (trace (snd out)))
  /\ (forall files, fs_listdir env = Ok files ->
        fst out = Ret tt
        /\ In (Log ERROR "Fatal error: %s" [AExn (FileNotFoundError error_msg)])
              (trace (snd out))
        /\ forall s, fst (validate_files env s) = Raise (FileNotFoundError error_msg))
  /\ forallb is_log (trace (snd out)) = true
  /\ existsb is_network (trace (snd out)) = false
  /\ csv_file (snd out) = csv.
Proof.
  intros Habs out nl error_msg.
  assert (Hmsg : error_msg = missing_files_msg (missing_of env)).
  { unfold error_msg, missing_files_msg. rewrite missing_of_eq. reflexivity. }
  assert (Hmiss : missing_of env <> []).
  { rewrite missing_of_eq.
    destruct Habs as [H|[H|H]]; rewrite H;
      destruct (fs_exists env CA_PATH), (fs_exists env CERT_PATH),
        (fs_exists env KEY_PATH); discriminate. }
  clearbody error_msg. subst error_msg.
  assert (Hlog : forallb is_log (trace (snd out)) = true).
  { subst out. rewrite (main_missing_eq _ _ _ Hmiss). cbv zeta.
    cbn [initial_state iot_client_bound client andb app].
    destruct (fs_listdir env) as [files|e]; [|destruct e as [msg|msg|]];
      cbn [is_Exception fst snd add_trace trace initial_state app];
      cbn [forallb is_log andb];
      repeat (apply forallb_app_true);
      auto using forallb_is_log_found, forallb_is_log_listing. }
  assert (Hfound : forall a, In a (found_in env file_checks) -> In a (trace (snd out))).
  { intros a Ha. subst out. rewrite (main_missing_eq _ _ _ Hmiss). cbv zeta.
    destruct (fs_listdir env) as [files|e]; [|destruct (is_Exception e)];
      cbn [snd add_trace trace initial_state app];
      right; apply in_or_app; left; apply in_or_app; left; exact Ha. }
  repeat split.
  - subst out. rewrite (main_missing_eq _ _ _ Hmiss). cbv zeta.
    destruct (fs_listdir env) as [files|e]; [|destruct e as [msg|msg|]]; cbn; auto.
  - subst out. rewrite (main_missing_eq _ _ _ Hmiss). cbv zeta.
    destruct (fs_listdir env) as [files|e]; [|destruct (is_Exception e)];
      cbn [snd add_trace trace initial_state app];
      right; apply in_or_app; left; apply in_or_app; right; cbn; auto.
  - intros path Hin Hex. apply Hfound. rewrite found_in_eq.
    destruct Hin as [<-|[<-|[<-|[]]]]; rewrite Hex; rewrite !in_app_iff; cbn; auto.
  - subst out. rewrite (main_missing_eq _ _ _ Hmiss). cbv zeta. now rewrite H.
  - subst out. rewrite (main_missing_eq _ _ _ Hmiss). cbv zeta. rewrite H.
    cbn [snd add_trace trace initial_state app].
    right. rewrite !in_app_iff. cbn. auto 10.
  - intros s. rewrite validate_files_eq.
    destruct (missing_of env); [congruence|]. cbv zeta. now rewrite H.
  - exact Hlog.
  - destruct (existsb is_network (trace (snd out))) eqn:E; trivial.
    apply existsb_exists in E. destruct E as (a & Ha & Hn).
    rewrite forallb_forall in Hlog. specialize (Hlog a Ha).
    destruct a; discriminate.
  - subst out. rewrite (main_missing_eq _ _ _ Hmiss). cbv zeta.
    destruct (fs_listdir env) as [files|e]; [|destruct (is_Exception e)]; reflexivity.
Qed.

Lemma missing_credentials_halt_before_network_witness :
  (fs_exists env_no_credentials CA_PATH = false
   \/ fs_exists env_no_credentials CERT_PATH = false
   \/ fs_exists env_no_credentials KEY_PATH = false) /\
  let out := main 3 env_no_credentials (initial_state None) in
  let nl := String "010" "" in
  let error_msg :=
    ("MISSING FILES:" ++ nl
     ++ String.concat nl
          ((if fs_exists env_no_credentials CA_PATH then []
            else [("Root CA certificate: " ++ CA_PATH)%string])
           ++ (if fs_exists env_no_credentials CERT_PATH then []
               else [("Device certificate: " ++ CERT_PATH)%string])
           ++ (if fs_exists env_no_credentials KEY_PATH then []
               else [("Private key: " ++ KEY_PATH)%string]))%list)%string in
  (fst out = Ret tt \/ fst out = Raise KeyboardInterrupt)
  /\ In (Log ERROR error_msg []) (trace (snd out))
  /\ (forall path, In path [CA_PATH; CERT_PATH; KEY_PATH] ->
        fs_exists env_no_credentials path = true ->
        In (Log INFO "Found: %s" [AStr path]) (trace (snd out)))
  /\ (forall files, fs_listdir env_no_credentials = Ok files ->
        fst out = Ret tt
        /\ In (Log ERROR "Fatal error: %s" [AExn (FileNotFoundError error_msg)])
              (trace (snd out))
        /\ forall s, fst (validate_files env_no_credentials s)
                     = Raise (FileNotFoundError error_msg))
  /\ forallb is_log (trace (snd out)) = true
  /\ existsb is_network (trace (snd out)) = false
  /\ csv_file (snd out) = None.
Proof.
  split.
  - right. left. reflexivity.
  - apply (missing_credentials_halt_before_network 3 env_no_credentials None).
    right. left. reflexivity.
Defined.

(** With the certificate and the key absent, the message names both, and the
    run consists of these seven log lines. *)
Example missing_credentials_sample :
  main 3 env_no_credentials (initial_state None)
  = (Ret tt,
     add_trace (initial_state None)
       (let error_msg :=
          ("MISSING FILES:" ++ String "010" ""
           ++ "Device certificate: " ++ CERT_PATH ++ String "010" ""
           ++ "Private key: " ++ KEY_PATH)%string in
        [Log INFO "Starting AWS IoT Core Publisher" [];
         Log INFO "Found: %s" [AStr CA_PATH];
         Log ERROR error_msg [];
         Log INFO "Files in directory:" [];
         Log INFO "  - %s" [AStr "AmazonRootCA1.pem"];
         Log ERROR "Fatal error: %s" [AExn (FileNotFoundError error_msg)];
         Log INFO "Publisher stopped" []])).
Proof. vm_compute. reflexivity. Qed.

(** ** The MQTT client *)

(** The state a callback leaves; whether it returned or raised is of no
    consequence outside the network thread. *)
Lemma run_callback_state cb s :
  snd (run_callback cb s)
  = add_trace (set_flag s (callback_flag cb (is_connected s))) (callback_log cb).
Proof.
  destruct s as [csv conn cl bnd cnt tr].
  destruct cb as [rc|rc|mid]; cbn [run_callback callback_flag callback_log].
  - unfold on_connect. cbn [rc_is_zero].
    destruct (rc =? 0); mrun; rewrite ?List.app_nil_r; reflexivity.
  - mrun. rewrite ?List.app_nil_r. reflexivity.
  - reflexivity.
Qed.

Lemma deliver_eq cbs s :
  deliver cbs s
  = (Ret tt, add_trace (set_flag s (flag_after cbs (is_connected s)))
                       (flat_map callback_log cbs)).
Proof.
  revert s. induction cbs as [|cb rest IH]; intros s.
  - destruct s. cbn. unfold ret, add_trace, set_flag. cbn.
    now rewrite List.app_nil_r.
  - cbn [deliver]. unfold bind at 1, in_thread. rewrite run_callback_state, IH.
    destruct s as [csv conn cl bnd cnt tr]. unfold add_trace, set_flag. cbn.
    now rewrite <- List.app_assoc.
Qed.

(** The body of [on_disconnect], and a refused CONNECT, clear the flag. *)
Lemma on_disconnect_clears rc s : is_connected (snd (on_disconnect rc s)) = false.
Proof. unfold on_disconnect. destruct (rc =? 0); reflexivity. Qed.

Lemma on_connect_refused_clears rc s :
  rc_is_zero rc = false -> is_connected (snd (on_connect rc s)) = false.
Proof.
  intros Hrc. unfold on_connect. rewrite Hrc. destruct rc; reflexivity.
Qed.

(** The MQTT 5 client never gets into the body of [on_disconnect]: the call
    raises in the network thread and the state, the flag included, stays as
    it is. *)
Lemma disconnect_callback_raises rc s :
  exists msg, run_callback (OnDisconnect rc) s = (Raise (Exception msg), s).
Proof. eexists. reflexivity. Qed.

(** A CONNECT that the broker refuses clears the flag, and the lookup of the
    error text raises before anything is logged. *)
Lemma refused_connect_callback rc s :
  rc <> 0 ->
  exists msg, run_callback (OnConnect rc) s = (Raise (Exception msg), set_flag s false).
Proof.
  intros Hrc. cbn [run_callback]. unfold on_connect. cbn [rc_is_zero].
  destruct (Z.eqb_spec rc 0); [contradiction|]. eexists. reflexivity.
Qed.


(** What [publish_message] does, case by case. *)
Lemma publish_message_eq ce topic message s :
  publish_message ce topic message s =
  if is_connected s then
    match ce_publish ce with
    | Ok info =>
        if pi_rc info =? MQTT_ERR_SUCCESS
        then (Ret true, add_trace s [NetPublish topic message 1])
        else (Ret false,
              add_trace s [NetPublish topic message 1;
                           Log ERROR "Failed to publish message: MQTT error %s"
                               [AInt (pi_rc info)]])
    | Throws e =>
        if is_Exception e
        then (Ret false,
              add_trace s [NetPublish topic message 1;
                           Log ERROR "Publish error: %s" [AExn e]])
        else (Raise e, add_trace s [NetPublish topic message 1])
    end
  else (Ret false, add_trace s [Log ERROR "Not connected to AWS IoT Core" []]).
Proof.
  unfold publish_message, bind at 1, get_is_connected.
  destruct (is_connected s) eqn:Hc; cbn [negb].
  - unfold try_except, bind, emit, log, call, ret, raise.
    destruct (ce_publish ce) as [info|e]; cbn.
    + destruct (pi_rc info =? MQTT_ERR_SUCCESS); unfold add_trace; cbn;
        rewrite <- ?List.app_assoc; reflexivity.
    + destruct (is_Exception e); unfold add_trace; cbn;
        rewrite <- ?List.app_assoc; reflexivity.
  - reflexivity.
Qed.

(** C9.  With [is_connected] false, [publish_message] answers [False] and
    only writes the log line: the transport's publish is not called. *)
Theorem publish_message_requires_connection ce topic message s :
  is_connected s = false ->
  publish_message ce topic message s
  = (Ret false, add_trace s [Log ERROR "Not connected to AWS IoT Core" []])
  /\ filter is_publish (trace (snd (publish_message ce topic message s)))
     = filter is_publish (trace s).
Proof.
  intros Hc. rewrite publish_message_eq, Hc. split; [reflexivity|].
  cbn. rewrite filter_app. cbn. now rewrite List.app_nil_r.
Qed.

Lemma publish_message_requires_connection_witness :
  is_connected offline_state = false /\
  publish_message plain_cycle TOPIC sample_payload offline_state
  = (Ret false,
     add_trace offline_state [Log ERROR "Not connected to AWS IoT Core" []])
  /\ filter is_publish
       (trace (snd (publish_message plain_cycle TOPIC sample_payload offline_state)))
     = filter is_publish (trace offline_state).
Proof.
  split; [reflexivity|].
  apply (publish_message_requires_connection plain_cycle TOPIC sample_payload
                                              offline_state).
  reflexivity.
Defined.

(** A publish reaches the transport only from the connected state. *)
Lemma publish_attempt_implies_connected ce topic message s :
  filter is_publish (trace (snd (publish_message ce topic message s)))
  <> filter is_publish (trace s) ->
  is_connected s = true.
Proof.
  intros H. destruct (is_connected s) eqn:Hc; trivial.
  exfalso. apply H. rewrite publish_message_eq, Hc.
  cbn. rewrite filter_app. cbn. now rewrite List.app_nil_r.
Qed.

(** After the callback for a refused CONNECT, the next publish is answered
    [False] without a call to the transport. *)
Lemma publish_after_drop ce topic message s rc :
  rc <> 0 ->
  fst (publish_message ce topic message (snd (run_callback (OnConnect rc) s)))
  = Ret false
  /\ filter is_publish
       (trace (snd (publish_message ce topic message
                                    (snd (run_callback (OnConnect rc) s)))))
     = filter is_publish (trace s).
Proof.
  intros Hrc. rewrite run_callback_state. cbn [callback_flag callback_log].
  destruct (Z.eqb_spec rc 0) as [|_]; [contradiction|].
  rewrite publish_message_eq. cbn [add_trace set_flag is_connected fst snd trace].
  rewrite !filter_app. cbn. rewrite !List.app_nil_r. auto.
Qed.

(** ** Submitting an event *)

(** What [save_to_csv] does, case by case. *)
Lemma save_to_csv_eq ce data s :
  save_to_csv ce data s =
  let s1 := with_csv s (saved ce data (csv_file s)) in
  match save_error ce with
  | None => (Ret tt, s1)
  | Some e =>
      if is_Exception e
      then (Ret tt, add_trace s1 [Log ERROR "Failed to write to CSV: %s" [AExn e]])
      else (Raise e, s1)
  end.
Proof.
  unfold save_to_csv, writerow, saved, save_error.
  destruct s as [csv conn cl bnd cnt tr].
  destruct (ce_open ce) as [[]|e1].
  - destruct (ce_write ce) as [[]|e2]; [reflexivity|].
    destruct e2; reflexivity.
  - destruct e1; reflexivity.
Qed.

(** What [submit] does, case by case. *)
Lemma submit_eq ce payload s :
  submit ce payload s =
  if accepted ce s then
    let n := message_count s + 1 in
    let t := [NetPublish TOPIC payload 1;
              Log INFO "[%s] Sent: %s" [AInt n; AMsg payload]] in
    let s1 := mkState (saved ce payload (csv_file s)) true (client s)
                      (iot_client_bound s) n (trace s ++ t) in
    match save_error ce with
    | None => (Ret true, s1)
    | Some e =>
        if is_Exception e
        then (Ret true, add_trace s1 [Log ERROR "Failed to write to CSV: %s" [AExn e]])
        else (Raise e, s1)
    end
  else
    match publish_message ce TOPIC payload s with
    | (Ret _, s1) => (Ret false, add_trace s1 [Log WARNING "Failed to publish message" []])
    | r => (match fst r with Raise e => Raise e | _ => OutOfFuel end, snd r)
    end.
Proof.
  unfold submit, accepted. unfold bind at 1. rewrite publish_message_eq.
  destruct s as [csv conn cl bnd cnt tr]. cbn [is_connected andb].
  destruct conn; cbn [andb]; [|mrun; reflexivity].
  destruct (ce_publish ce) as [info|e].
  - destruct (pi_rc info =? MQTT_ERR_SUCCESS); [|mrun; reflexivity].
    unfold bind at 1. unfold bind at 1, get_message_count.
    unfold bind at 1, set_message_count. unfold bind at 1. rewrite log_eq.
    rewrite save_to_csv_eq. cbv zeta.
    destruct (save_error ce) as [e|]; [destruct (is_Exception e)|]; mrun; reflexivity.
  - destruct (is_Exception e); mrun; reflexivity.
Qed.



Lemma existsb_is_sent_log_false l :
  forallb (fun a => negb (is_sent_log a)) l = true -> existsb is_sent_log l = false.
Proof.
  induction l as [|a l IH]; cbn; trivial.
  intros H. apply andb_prop in H as [Ha Hl]. rewrite (IH Hl).
  now destruct (is_sent_log a).
Qed.



(** A publish that the transport refuses: the event is not counted, no
    "Sent" line is logged, and the log is as it was. *)
Example refused_publish_is_not_counted :
  let ce := {| ce_callbacks := [];
               ce_random := Ok (half, half);
               ce_utcnow := Ok "2024-01-01T00:00:00";
               ce_time := 1700000000 # 1;
               ce_randint := 1234;
               ce_publish := Ok {| pi_rc := 4; pi_mid := 1 |};
               ce_open := Ok tt;
               ce_write := Ok tt;
               ce_kept := 0;
               ce_interrupt := false;
               ce_interrupt_handler := false |} in
  submit ce sample_payload online_state
  = (Ret false,
     add_trace online_state
       [NetPublish TOPIC sample_payload 1;
        Log ERROR "Failed to publish message: MQTT error %s" [AInt 4];
        Log WARNING "Failed to publish message" []]).
Proof. reflexivity. Qed.


(** ** The publishing loop *)

Lemma ends_with_app a l1 l2 : ends_with a l2 -> ends_with a (l1 ++ l2).
Proof. intros [t ->]. exists (l1 ++ t). now rewrite List.app_assoc. Qed.

Lemma ends_with_last a t : ends_with a (t ++ [a]).
Proof. now exists t. Qed.

Lemma accepted_set_flag ce s b t :
  accepted ce (add_trace (set_flag s b) t) = accepted ce (set_flag s b).
Proof. reflexivity. Qed.

(** A cycle without an interrupt hands over to the next cycle, and the last
    thing it did is a completed wait of [PUBLISH_INTERVAL] seconds; when it
    failed, it logged the failure first. *)
Lemma cycle_continues ce s :
  interrupted ce = false ->
  exists s' t,
    cycle ce s = (Ret Continue, s')
    /\ trace s' = trace s ++ t
    /\ ends_with interval_sleep t
    /\ (cycle_failed ce s = true -> existsb is_problem_log t = true).
Proof.
  unfold interrupted, cycle_failed. intros Hint.
  apply orb_false_elim in Hint as [Hint Hh].
  apply orb_false_elim in Hint as [Hint Hs].
  apply orb_false_elim in Hint as [Hint Hw].
  apply orb_false_elim in Hint as [Hint Ho].
  apply orb_false_elim in Hint as [Hint Hp].
  apply orb_false_elim in Hint as [Hr Hu].
  unfold cycle. rewrite (bind_ret _ _ _ _ _ (deliver_eq _ _)).
  set (b := flag_after (ce_callbacks ce) (is_connected s)).
  set (cbl := flat_map callback_log (ce_callbacks ce)).
  assert (Hend : forall l1 l2, ends_with interval_sleep (l1 ++ l2 ++ [interval_sleep])).
  { intros l1 l2. rewrite List.app_assoc. apply ends_with_last. }
  assert (Hlog : forall l1 l2 lvl fmt args,
             is_problem_log (Log lvl fmt args) = true ->
             existsb is_problem_log (l1 ++ l2 ++ [Log lvl fmt args; interval_sleep])
             = true).
  { intros l1 l2 lvl fmt args Hl. rewrite !existsb_app. cbn [existsb].
    rewrite Hl. cbn. now rewrite !orb_true_r. }
  assert (Hsave : save_error ce <> Some KeyboardInterrupt).
  { unfold save_error. destruct (ce_open ce) as [u|[| |]]; try discriminate.
    destruct (ce_write ce) as [u'|[| |]]; discriminate. }
  unfold try_except2. unfold bind at 1.
  destruct (ce_random ce) as [draws|e1]; cbn [call is_ok andb negb].
  2:{ destruct e1; try discriminate; mrun; rewrite Hh; cbn;
      (do 2 eexists); (split; [reflexivity|]); cbn [trace];
      (split; [reflexivity|]);
      (split; [apply (Hend _ [_])|intros _; apply (Hlog _ []); reflexivity]). }
  unfold ret at 1. unfold bind at 1.
  destruct (ce_utcnow ce) as [iso|e2]; cbn [call is_ok andb negb].
  2:{ destruct e2; try discriminate; mrun; rewrite Hh; cbn;
      (do 2 eexists); (split; [reflexivity|]); cbn [trace];
      (split; [reflexivity|]);
      (split; [apply (Hend _ [_])|intros _; apply (Hlog _ []); reflexivity]). }
  unfold ret at 1. unfold bind at 1. rewrite submit_eq, accepted_set_flag.
  destruct (accepted ce (set_flag s b)) eqn:Hacc; cbv zeta.
  - destruct (save_error ce) as [e3|].
    + destruct e3; try congruence; mrun; rewrite Hs; cbn;
        (do 2 eexists); (split; [reflexivity|]); cbn [trace];
        (split; [reflexivity|]); (split; [apply (Hend _ [_; _; _])|discriminate]).
    + mrun. rewrite Hs. cbn. do 2 eexists. split; [reflexivity|]. cbn [trace].
      split; [reflexivity|]. split; [apply (Hend _ [_; _])|discriminate].
  - rewrite publish_message_eq. unfold accepted in Hacc.
    cbn [add_trace set_flag is_connected] in Hacc |- *.
    destruct b; cbn [andb] in Hacc |- *.
    + destruct (ce_publish ce) as [info|e4].
      * rewrite Hacc. mrun. rewrite Hs. cbn. do 2 eexists.
        split; [reflexivity|]. cbn [trace]. split; [reflexivity|].
        split; [apply (Hend _ [_; _; _])|intros _; apply (Hlog _ [_; _]); reflexivity].
      * destruct e4; try discriminate; mrun; rewrite Hs; cbn;
          (do 2 eexists); (split; [reflexivity|]); cbn [trace];
          (split; [reflexivity|]);
          (split; [apply (Hend _ [_; _; _])
                  |intros _; apply (Hlog _ [_; _]); reflexivity]).
    + mrun. rewrite Hs. cbn. do 2 eexists.
      split; [reflexivity|]. cbn [trace]. split; [reflexivity|].
      split; [apply (Hend _ [_; _])|intros _; apply (Hlog _ [_]); reflexivity].
Qed.

Lemma count_interval_sleeps_grows tr t :
  ends_with interval_sleep t ->
  (length (filter is_interval_sleep (tr ++ t))
   >= length (filter is_interval_sleep tr) + 1)%nat.
Proof.
  intros [u ->]. rewrite !filter_app, !length_app. cbn. lia.
Qed.

Lemma main_loop_runs env n : forall c0 s,
  (forall c, (c0 <= c < c0 + n)%nat -> interrupted (cycles env c) = false) ->
  exists s',
    main_loop n env c0 s = (OutOfFuel, s')
    /\ (length (filter is_interval_sleep (trace s'))
        >= length (filter is_interval_sleep (trace s)) + n)%nat.
Proof.
  induction n as [|n IH]; intros c0 s Hno.
  - exists s. split; [reflexivity|lia].
  - destruct (cycle_continues (cycles env c0) s) as (s1 & t & Hc & Ht & Hend & _).
    { apply Hno. lia. }
    destruct (IH (S c0) s1) as (s' & Hl & Hn).
    { intros c Hc'. apply Hno. lia. }
    exists s'. cbn [main_loop]. rewrite (bind_ret _ _ _ _ _ Hc). split; trivial.
    pose proof (count_interval_sleeps_grows (trace s) t Hend) as Hg.
    rewrite <- Ht in Hg. lia.
Qed.

(** The loop leaves [while True] only in a cycle that the operator
    interrupts. *)
Lemma main_loop_stops_only_on_interrupt env n : forall c0 s,
  fst (main_loop n env c0 s) <> OutOfFuel ->
  exists c, (c0 <= c < c0 + n)%nat /\ interrupted (cycles env c) = true.
Proof.
  induction n as [|n IH]; intros c0 s Hstop.
  - cbn in Hstop. congruence.
  - destruct (interrupted (cycles env c0)) eqn:Hi.
    + exists c0. split; [lia|trivial].
    + destruct (cycle_continues (cycles env c0) s Hi) as (s1 & t & Hc & _).
      cbn [main_loop] in Hstop. rewrite (bind_ret _ _ _ _ _ Hc) in Hstop.
      destruct (IH (S c0) s1 Hstop) as (c & Hc1 & Hc2).
      exists c. split; [lia|trivial].
Qed.

(** C8.  As long as the operator does not interrupt, no cycle ends the
    publishing loop: after [n] cycles the loop is still running and has
    completed at least [n] waits of [PUBLISH_INTERVAL] seconds; every such
    cycle, whatever failed in it, hands over to the next one, its last action
    is the completed wait, and a failure was logged at ERROR or WARNING level
    before that wait. *)
Theorem publishing_loop_survives_failures env n s :
  (forall c, (c < n)%nat -> interrupted (cycles env c) = false) ->
  (exists s',
      main_loop n env 0 s = (OutOfFuel, s')
      /\ (length (filter is_interval_sleep (trace s'))
          >= length (filter is_interval_sleep (trace s)) + n)%nat)
  /\ (forall c s0, (c < n)%nat ->
        exists s1 t,
          cycle (cycles env c) s0 = (Ret Continue, s1)
          /\ trace s1 = trace s0 ++ t
          /\ ends_with interval_sleep t
          /\ (cycle_failed (cycles env c) s0 = true ->
              existsb is_problem_log t = true)).
Proof.
  intros Hno. split.
  - apply main_loop_runs. intros c Hc. apply Hno. lia.
  - intros c s0 Hc. apply cycle_continues. now apply Hno.
Qed.

Lemma publishing_loop_survives_failures_witness :
  (forall c, (c < 3)%nat -> interrupted (cycles env_rejected c) = false) /\
  (exists s',
      main_loop 3 env_rejected 0 offline_state = (OutOfFuel, s')
      /\ (length (filter is_interval_sleep (trace s'))
          >= length (filter is_interval_sleep (trace offline_state)) + 3)%nat)
  /\ (forall c s0, (c < 3)%nat ->
        exists s1 t,
          cycle (cycles env_rejected c) s0 = (Ret Continue, s1)
          /\ trace s1 = trace s0 ++ t
          /\ ends_with interval_sleep t
          /\ (cycle_failed (cycles env_rejected c) s0 = true ->
              existsb is_problem_log t = true)).
Proof.
  split.
  - intros c _. reflexivity.
  - apply (publishing_loop_survives_failures env_rejected 3 offline_state).
    intros c _. reflexivity.
Defined.

(** ** Connecting *)

Lemma flag_after_true cbs : forall b,
  flag_after cbs b = true -> b = true \/ In (OnConnect 0) cbs.
Proof.
  unfold flag_after. induction cbs as [|cb rest IH]; intros b H; cbn in *.
  - auto.
  - destruct (IH _ H) as [Hf|Hin]; [|auto].
    destruct cb as [rc|rc|mid]; cbn in Hf.
    + apply Z.eqb_eq in Hf. subst rc. auto.
    + auto.
    + auto.
Qed.

(** The flag is cleared by the callback for a refused CONNECT only. *)
Lemma flag_after_false cbs : forall b,
  flag_after cbs b = false ->
  b = false \/ exists rc, rc <> 0 /\ In (OnConnect rc) cbs.
Proof.
  unfold flag_after. induction cbs as [|cb rest IH]; intros b H; cbn in *.
  - auto.
  - destruct (IH _ H) as [Hf|(rc & Hrc & Hin)]; [|eauto].
    destruct cb as [rc|rc|mid]; cbn in Hf; auto.
    apply Z.eqb_neq in Hf. eauto.
Qed.

Lemma callback_logs_quiet cbs :
  forallb is_log_or_sleep (flat_map callback_log cbs) = true.
Proof.
  induction cbs as [|cb rest IH]; cbn; trivial.
  rewrite forallb_app, IH.
  destruct cb as [rc|rc|mid]; cbn; try destruct (rc =? 0); reflexivity.
Qed.

Lemma callback_logs_no_sleep cbs :
  filter is_sleep (flat_map callback_log cbs) = [].
Proof.
  induction cbs as [|cb rest IH]; cbn; trivial.
  rewrite filter_app, IH, List.app_nil_r.
  destruct cb as [rc|rc|mid]; cbn; try destruct (rc =? 0); reflexivity.
Qed.

Lemma add_trace_set_flag s b t b' t' :
  add_trace (set_flag (add_trace (set_flag s b) t) b') t'
  = add_trace (set_flag s b') (t ++ t').
Proof. unfold add_trace, set_flag. cbn. now rewrite List.app_assoc. Qed.

(** One turn of the wait loop. *)
Lemma wait_for_connection_S fuel env i s :
  wait_for_connection (S fuel) env i s =
  let b := flag_after (p_callbacks (polls env i)) (is_connected s) in
  let s1 := add_trace (set_flag s b) (flat_map callback_log (p_callbacks (polls env i))) in
  if negb b && Qlt_bool (elapsed env i) connect_timeout then
    if p_interrupt (polls env i)
    then (Raise KeyboardInterrupt, add_trace s1 [Sleep connect_poll])
    else wait_for_connection fuel env (S i) (add_trace s1 [Sleep connect_poll])
  else (Ret i, s1).
Proof.
  cbn [wait_for_connection]. rewrite (bind_ret _ _ _ _ _ (deliver_eq _ _)).
  cbv zeta. unfold bind at 1, get_is_connected.
  cbn [is_connected add_trace set_flag]. fold (elapsed env i).
  destruct (negb _ && _); [|reflexivity].
  unfold sleep, bind at 1, bind at 1. rewrite emit_eq.
  destruct (p_interrupt (polls env i)); reflexivity.
Qed.

(** The wait loop touches the connection flag and the trace only, and what it
    adds to the trace are log lines and sleeps. *)
Lemma wait_for_connection_frame fuel env : forall i s,
  exists b t,
    snd (wait_for_connection fuel env i s) = add_trace (set_flag s b) t
    /\ forallb is_log_or_sleep t = true.
Proof.
  induction fuel as [|fuel IH]; intros i s.
  - exists (is_connected s), []. split; [|reflexivity].
    destruct s. unfold add_trace, set_flag. cbn. now rewrite List.app_nil_r.
  - rewrite wait_for_connection_S. cbv zeta.
    set (b := flag_after _ _). set (l := flat_map _ _).
    assert (Hl : forallb is_log_or_sleep l = true) by apply callback_logs_quiet.
    destruct (negb b && Qlt_bool _ _).
    + destruct (p_interrupt (polls env i)).
      * exists b, (l ++ [Sleep connect_poll]). cbn [snd]. split.
        -- now rewrite add_trace_app.
        -- rewrite forallb_app, Hl. reflexivity.
      * destruct (IH (S i) (add_trace (add_trace (set_flag s b) l) [Sleep connect_poll]))
          as (b' & t' & -> & Ht').
        exists b', ((l ++ [Sleep connect_poll]) ++ t'). split.
        -- unfold add_trace, set_flag. cbn. now rewrite !List.app_assoc.
        -- rewrite !forallb_app, Ht', Hl. reflexivity.
    + exists b, l. split; [reflexivity|trivial].
Qed.

(** How the wait loop runs: it sleeps a tenth of a second after each check at
    which it goes on, and it goes on only at checks where the flag is clear
    and the clock shows less than the timeout; it leaves with the flag set
    only when the broker's acceptance was delivered at one of its checks, and
    with the flag clear only when the clock shows that the time is over. *)
Lemma wait_for_connection_run fuel env : forall i s,
  let out := wait_for_connection fuel env i s in
  exists n t,
    trace (snd out) = trace s ++ t
    /\ filter is_sleep t = repeat (Sleep connect_poll) n
    /\ (forall k, (i <= k < i + n)%nat ->
          Qlt_bool (elapsed env k) connect_timeout = true)
    /\ match fst out with
       | Ret j =>
           j = (i + n)%nat /\ (n < fuel)%nat
           /\ (is_connected (snd out) = true ->
               is_connected s = true
               \/ exists k, (i <= k <= j)%nat
                            /\ In (OnConnect 0) (p_callbacks (polls env k)))
           /\ (is_connected (snd out) = false ->
               Qlt_bool (elapsed env j) connect_timeout = false)
       | Raise e => e = KeyboardInterrupt /\ (0 < n)%nat
       | OutOfFuel => n = fuel
       end.
Proof.
  induction fuel as [|fuel IH]; intros i s; cbv zeta.
  - exists 0%nat, []. cbn. rewrite List.app_nil_r. repeat split. intros k Hk. lia.
  - rewrite wait_for_connection_S. cbv zeta.
    pose proof (flag_after_true (p_callbacks (polls env i)) (is_connected s)) as Hflag.
    set (b := flag_after _ _) in *. set (l := flat_map _ _).
    assert (Hl : filter is_sleep l = []) by apply callback_logs_no_sleep.
    destruct (negb b && Qlt_bool (elapsed env i) connect_timeout) eqn:Hgo.
    + apply andb_prop in Hgo as [Hb Hq]. apply negb_true_iff in Hb.
      destruct (p_interrupt (polls env i)).
      * exists 1%nat, (l ++ [Sleep connect_poll]).
        cbn [fst snd add_trace set_flag trace].
        rewrite <- List.app_assoc, filter_app, Hl. cbn. repeat split; try lia.
        intros k Hk. replace k with i by lia. exact Hq.
      * set (s2 := add_trace (add_trace (set_flag s b) l) [Sleep connect_poll]).
        specialize (IH (S i) s2). cbv zeta in IH.
        destruct IH as (n & t & Ht & Hsl & Hk & Hres).
        exists (S n), (l ++ [Sleep connect_poll] ++ t). split; [|split; [|split]].
        -- rewrite Ht. unfold s2. cbn [add_trace set_flag trace].
           now rewrite <- !List.app_assoc.
        -- rewrite !filter_app, Hl, Hsl. reflexivity.
        -- intros k Hk'. destruct (Nat.eq_dec k i) as [->|Hne]; trivial.
           apply Hk. lia.
        -- destruct (wait_for_connection fuel env (S i) s2) as [[j|e|] s'];
             cbn [fst snd] in Hres |- *.
           ++ destruct Hres as (Hj & Hn & Hack & Hlate).
              split; [lia|]. split; [lia|]. split; trivial.
              intros Hc. destruct (Hack Hc) as [H|(k & Hk1 & Hk2)].
              ** unfold s2 in H. cbn in H. congruence.
              ** right. exists k. split; [lia|trivial].
           ++ destruct Hres as [He Hn]. split; [trivial|lia].
           ++ lia.
    + exists 0%nat, l. cbn [fst snd add_trace set_flag trace is_connected].
      rewrite Hl, Nat.add_0_r. repeat split; try lia.
      * intros Hb. destruct (Hflag Hb) as [H|H]; [auto|].
        right. exists i. split; [lia|trivial].
      * intros Hb. rewrite Hb in Hgo. exact Hgo.
Qed.

(** A step that returns normally, or raises, at the head of a [try] block. *)
Lemma try_except_step {A} (p : M unit) (m : M A) h s s' :
  p s = (Ret tt, s') -> try_except (p ;; m) h s = try_except m h s'.
Proof. intros Hp. unfold try_except, bind. now rewrite Hp. Qed.

Lemma try_except_step_raise {A} (p : M unit) (m : M A) h s e s' :
  p s = (Raise e, s') ->
  try_except (p ;; m) h s = if is_Exception e then h e s' else (Raise e, s').
Proof. intros Hp. unfold try_except, bind. now rewrite Hp. Qed.

Lemma try_except_emit {A} a (m : M A) h s :
  try_except (emit a ;; m) h s = try_except m h (add_trace s [a]).
Proof. reflexivity. Qed.

(** What [connect] does, call by call. *)
Lemma connect_steps fuel env s :
  connect fuel env s =
  let failed e s' :=
    if is_Exception e
    then (Ret false, add_trace s' [Log ERROR "Connection error: %s" [AExn e]])
    else (Raise e, s') in
  match new_client env with
  | Throws e => failed e s
  | Ok _ =>
      let s1 := add_trace (with_client s true)
                          [Log INFO "Configuring TLS with:" [];
                           Log INFO "  CA: %s" [AStr CA_PATH];
                           Log INFO "  Cert: %s" [AStr CERT_PATH];
                           Log INFO "  Key: %s" [AStr KEY_PATH];
                           TlsSet CA_PATH CERT_PATH KEY_PATH] in
      match tls_set env with
      | Throws e => failed e s1
      | Ok _ =>
          let s2 := add_trace s1 [Log INFO "Connecting to %s..." [AStr ENDPOINT];
                                  NetConnect ENDPOINT 8883 60] in
          match net_connect env with
          | Throws e => failed e s2
          | Ok _ =>
              match wait_for_connection fuel env 0 (add_trace s2 [LoopStart]) with
              | (Ret i, s4) =>
                  let s5 := snd (deliver (p_callbacks (polls env (S i))) s4) in
                  if is_connected s5 then (Ret true, s5)
                  else failed (Exception "Connection timeout") s5
              | (Raise e, s4) => failed e s4
              | (OutOfFuel, s4) => (OutOfFuel, s4)
              end
          end
      end
  end.
Proof.
  unfold connect, log. cbv zeta.
  destruct (new_client env) as [[]|e].
  2:{ rewrite (try_except_step_raise (raise e) _ _ _ e _ eq_refl).
      destruct e; reflexivity. }
  rewrite (try_except_step (ret tt) _ _ _ _ eq_refl).
  rewrite (try_except_step _ _ _ s (with_client s true) eq_refl).
  rewrite !try_except_emit, !add_trace_app. cbn [app].
  destruct (tls_set env) as [[]|e].
  2:{ rewrite (try_except_step_raise (raise e) _ _ _ e _ eq_refl).
      destruct e; reflexivity. }
  rewrite (try_except_step (ret tt) _ _ _ _ eq_refl).
  rewrite !try_except_emit, !add_trace_app. cbn [app].
  destruct (net_connect env) as [[]|e].
  2:{ rewrite (try_except_step_raise (raise e) _ _ _ e _ eq_refl).
      destruct e; reflexivity. }
  rewrite (try_except_step (ret tt) _ _ _ _ eq_refl).
  rewrite !try_except_emit, !add_trace_app. cbn [app].
  unfold try_except. unfold bind at 1.
  destruct (wait_for_connection fuel env 0 _) as [[i|e|] s4]; [| |reflexivity].
  - unfold bind at 1. rewrite deliver_eq. cbn [snd].
    unfold bind, get_is_connected. cbn [is_connected add_trace set_flag].
    destruct (flag_after _ _); reflexivity.
  - destruct e; reflexivity.
Qed.

(** The same, by the way the set-up of the transport goes. *)
Lemma connect_eq fuel env s :
  connect fuel env s =
  let failed e s' :=
    if is_Exception e
    then (Ret false, add_trace s' [Log ERROR "Connection error: %s" [AExn e]])
    else (Raise e, s') in
  let s1 := add_trace (with_client s true)
                      [Log INFO "Configuring TLS with:" [];
                       Log INFO "  CA: %s" [AStr CA_PATH];
                       Log INFO "  Cert: %s" [AStr CERT_PATH];
                       Log INFO "  Key: %s" [AStr KEY_PATH];
                       TlsSet CA_PATH CERT_PATH KEY_PATH] in
  let s2 := add_trace s1 [Log INFO "Connecting to %s..." [AStr ENDPOINT];
                          NetConnect ENDPOINT 8883 60] in
  match startup env with
  | ClientFails e => failed e s
  | TlsFails e => failed e s1
  | ConnectFails e => failed e s2
  | Started =>
      match wait_for_connection fuel env 0 (add_trace s2 [LoopStart]) with
      | (Ret i, s4) =>
          let s5 := snd (deliver (p_callbacks (polls env (S i))) s4) in
          if is_connected s5 then (Ret true, s5)
          else failed (Exception "Connection timeout") s5
      | (Raise e, s4) => failed e s4
      | (OutOfFuel, s4) => (OutOfFuel, s4)
      end
  end.
Proof.
  rewrite connect_steps. unfold new_client, tls_set, net_connect.
  destruct (startup env); reflexivity.
Qed.

(** C5, as the code has it.  For a client that starts disconnected, [connect]
    adds to the trace [n] sleeps, each of a tenth of a second and each after
    a check at which the clock showed less than the ten seconds.  It answers
    [True] only with the flag set, and then an [on_connect] callback with
    reason code 0 was delivered at one of the checks made by then.  It never
    lets an [Exception] escape.  Every failure has the same answer [False]:
    an exception of the constructor, of [tls_set] or of the socket connect is
    answered at once, without any wait, its text being logged as "Connection
    error: ..."; and when the three went through, [False] means that the flag
    is clear at the end of the wait, because the clock shows that the ten
    seconds are over or because the broker refused the CONNECT, and what is
    logged is "Connection timeout" in both cases.  The wait is over at the
    first check at which the clock shows that the ten seconds have passed. *)
Theorem connect_outcome fuel env s :
  is_connected s = false ->
  let out := connect fuel env s in
  exists n t,
    trace (snd out) = trace s ++ t
    /\ filter is_sleep t = repeat (Sleep connect_poll) n
    /\ (forall k, (k < n)%nat -> Qlt_bool (elapsed env k) connect_timeout = true)
    /\ (forall b, fst out = Ret b -> is_connected (snd out) = b)
    /\ (fst out = Ret true ->
        exists k, (k <= S n)%nat /\ In (OnConnect 0) (p_callbacks (polls env k)))
    /\ (forall e, fst out = Raise e -> e = KeyboardInterrupt)
    /\ (forall e, is_Exception e = true ->
          startup env = ClientFails e \/ startup env = TlsFails e
          \/ startup env = ConnectFails e ->
          fst out = Ret false /\ n = 0%nat
          /\ ends_with (Log ERROR "Connection error: %s" [AExn e]) (trace (snd out)))
    /\ (startup env = Started -> fst out = Ret false ->
          ends_with (Log ERROR "Connection error: %s"
                         [AExn (Exception "Connection timeout")])
                    (trace (snd out))
          /\ (Qlt_bool (elapsed env n) connect_timeout = false
              \/ exists k rc, (k <= S n)%nat /\ rc <> 0
                              /\ In (OnConnect rc) (p_callbacks (polls env k))))
    /\ (forall k, (k < fuel)%nat ->
                  Qlt_bool (elapsed env k) connect_timeout = false ->
                  fst out <> OutOfFuel).
Proof.
  intros Hs out. subst out. rewrite connect_eq. cbv zeta.
  assert (Hfail : forall e s' t',
             trace s' = trace s ++ t' -> filter is_sleep t' = [] ->
             is_connected s' = false -> startup env <> Started ->
             (forall e', is_Exception e' = true ->
                startup env = ClientFails e' \/ startup env = TlsFails e'
                \/ startup env = ConnectFails e' -> e' = e) ->
             let out := if is_Exception e
                        then (Ret false,
                              add_trace s' [Log ERROR "Connection error: %s" [AExn e]])
                        else (Raise e, s') in
             exists n t,
               trace (snd out) = trace s ++ t
               /\ filter is_sleep t = repeat (Sleep connect_poll) n
               /\ (forall k, (k < n)%nat ->
                     Qlt_bool (elapsed env k) connect_timeout = true)
               /\ (forall b, fst out = Ret b -> is_connected (snd out) = b)
               /\ (fst out = Ret true ->
                   exists k, (k <= S n)%nat
                             /\ In (OnConnect 0) (p_callbacks (polls env k)))
               /\ (forall e0, fst out = Raise e0 -> e0 = KeyboardInterrupt)
               /\ (forall e0, is_Exception e0 = true ->
                     startup env = ClientFails e0 \/ startup env = TlsFails e0
                     \/ startup env = ConnectFails e0 ->
                     fst out = Ret false /\ n = 0%nat
                     /\ ends_with (Log ERROR "Connection error: %s" [AExn e0])
                                  (trace (snd out)))
               /\ (startup env = Started -> fst out = Ret false ->
                     ends_with (Log ERROR "Connection error: %s"
                                    [AExn (Exception "Connection timeout")])
                               (trace (snd out))
                     /\ (Qlt_bool (elapsed env n) connect_timeout = false
                         \/ exists k rc, (k <= S n)%nat /\ rc <> 0
                                         /\ In (OnConnect rc) (p_callbacks (polls env k))))
               /\ (forall k, (k < fuel)%nat ->
                             Qlt_bool (elapsed env k) connect_timeout = false ->
                             fst out <> OutOfFuel)).
  { intros e s' t' Ht Hsl Hc Hst Huniq. cbv zeta.
    destruct (is_Exception e) eqn:He.
    - exists 0%nat, (t' ++ [Log ERROR "Connection error: %s" [AExn e]]).
      cbn [fst snd add_trace trace is_connected].
      rewrite Ht, <- List.app_assoc, filter_app, Hsl. cbn [filter is_sleep app repeat].
      split; [reflexivity|]. split; [reflexivity|]. split; [intros k Hk; lia|].
      split; [intros b Hb; congruence|]. split; [discriminate|].
      split; [discriminate|]. split; [|split; [contradiction|discriminate]].
      intros e0 He0 Hst0. rewrite (Huniq e0 He0 Hst0).
      repeat split. rewrite List.app_assoc. apply ends_with_last.
    - exists 0%nat, t'. cbn [fst snd]. rewrite Ht, Hsl.
      split; [reflexivity|]. split; [reflexivity|]. split; [intros k Hk; lia|].
      split; [discriminate|]. split; [discriminate|]. split.
      { intros e0 H0. injection H0 as <-. destruct e; try discriminate. reflexivity. }
      split; [|split; [contradiction|discriminate]].
      intros e0 He0 Hst0. rewrite (Huniq e0 He0 Hst0) in He0. congruence. }
  destruct (startup env) as [e|e|e|] eqn:Hst.
  - apply (Hfail e s []); trivial; try discriminate.
    + now rewrite List.app_nil_r.
    + intros e' _ [H|[H|H]]; congruence.
  - eapply (Hfail e); try reflexivity; trivial; try discriminate.
    intros e' _ [H|[H|H]]; congruence.
  - eapply (Hfail e); trivial; try discriminate.
    + cbn [add_trace with_client trace]. rewrite <- List.app_assoc. reflexivity.
    + reflexivity.
    + intros e' _ [H|[H|H]]; congruence.
  - rewrite !add_trace_app. cbn [app].
    match goal with |- context [wait_for_connection fuel env 0 ?s0] => set (s3 := s0) end.
    assert (Hs3 : is_connected s3 = false) by exact Hs.
    destruct (wait_for_connection_run fuel env 0 s3) as (n & t & Ht & Hsl & Hk & Hres).
    cbv zeta in Hres.
    destruct (wait_for_connection fuel env 0 s3) as [[j|e|] s4];
      cbn [fst snd] in Ht, Hres.
    + destruct Hres as (Hj & Hn & Hack & Hlate). cbn [Nat.add] in Hj. subst j.
      rewrite deliver_eq. cbn [snd add_trace set_flag is_connected].
      pose proof (flag_after_true (p_callbacks (polls env (S n))) (is_connected s4))
        as Hset.
      pose proof (flag_after_false (p_callbacks (polls env (S n))) (is_connected s4))
        as Hclear.
      set (l := flat_map callback_log (p_callbacks (polls env (S n)))).
      assert (Hl : filter is_sleep l = []) by apply callback_logs_no_sleep.
      destruct (flag_after _ _); cbn [fst snd is_Exception add_trace set_flag trace
                                        is_connected].
      * exists n. eexists. split.
        { rewrite Ht. unfold s3. cbn [add_trace with_client trace].
          rewrite <- !List.app_assoc. reflexivity. }
        cbn [app filter is_sleep]. rewrite ?filter_app, ?Hsl, ?Hl.
        cbn [app filter is_sleep]. rewrite ?List.app_nil_r.
        split; [reflexivity|]. split; [intros k Hk'; apply Hk; lia|].
        split; [intros b Hb; congruence|]. split.
        { intros _. destruct (Hset eq_refl) as [H4|Hin].
          - destruct (Hack H4) as [H3|(k & Hk1 & Hk2)]; [congruence|].
            exists k. split; [lia|trivial].
          - exists (S n). split; [lia|trivial]. }
        split; [discriminate|]. split; [intros e _ [H|[H|H]]; discriminate|].
        split; [discriminate|discriminate].
      * exists n. eexists. split.
        { rewrite Ht. unfold s3. cbn [add_trace with_client trace].
          rewrite <- !List.app_assoc. reflexivity. }
        cbn [app filter is_sleep]. rewrite ?filter_app, ?Hsl, ?Hl.
        cbn [app filter is_sleep]. rewrite ?List.app_nil_r.
        split; [reflexivity|]. split; [intros k Hk'; apply Hk; lia|].
        split; [intros b Hb; congruence|]. split; [discriminate|].
        split; [discriminate|]. split; [intros e _ [H|[H|H]]; discriminate|].
        split; [|discriminate].
        intros _ _. split.
        { apply ends_with_last. }
        destruct (Hclear eq_refl) as [H4|(rc & Hrc & Hin)].
        -- left. now apply Hlate.
        -- right. exists (S n), rc. repeat split; trivial.
    + destruct Hres as [-> Hn]. cbn [is_Exception fst snd].
      exists n. eexists. split.
      { rewrite Ht. unfold s3. cbn [add_trace with_client trace].
        rewrite <- !List.app_assoc. reflexivity. }
      cbn [app filter is_sleep]. rewrite ?filter_app, ?Hsl.
      cbn [app filter is_sleep]. rewrite ?List.app_nil_r.
      split; [reflexivity|]. split; [intros k Hk'; apply Hk; lia|].
      split; [discriminate|]. split; [discriminate|].
      split; [intros e H; congruence|].
      split; [intros e _ [H|[H|H]]; discriminate|].
      split; [discriminate|discriminate].
    + subst n. cbn [fst snd].
      exists fuel. eexists. split.
      { rewrite Ht. unfold s3. cbn [add_trace with_client trace].
        rewrite <- !List.app_assoc. reflexivity. }
      cbn [app filter is_sleep]. rewrite ?filter_app, ?Hsl.
      cbn [app filter is_sleep]. rewrite ?List.app_nil_r.
      split; [reflexivity|]. split; [intros k Hk'; apply Hk; lia|].
      split; [discriminate|]. split; [discriminate|]. split; [discriminate|].
      split; [intros e _ [H|[H|H]]; discriminate|]. split; [discriminate|].
      intros k Hk' Hq _. rewrite Hk in Hq by lia. discriminate.
Qed.

Lemma connect_outcome_witness :
  is_connected (initial_state None) = false /\
  let out := connect 200 env_online (initial_state None) in
  exists n t,
    trace (snd out) = trace (initial_state None) ++ t
    /\ filter is_sleep t = repeat (Sleep connect_poll) n
    /\ (forall k, (k < n)%nat -> Qlt_bool (elapsed env_online k) connect_timeout = true)
    /\ (forall b, fst out = Ret b -> is_connected (snd out) = b)
    /\ (fst out = Ret true ->
        exists k, (k <= S n)%nat /\ In (OnConnect 0) (p_callbacks (polls env_online k)))
    /\ (forall e, fst out = Raise e -> e = KeyboardInterrupt)
    /\ (forall e, is_Exception e = true ->
          startup env_online = ClientFails e \/ startup env_online = TlsFails e
          \/ startup env_online = ConnectFails e ->
          fst out = Ret false /\ n = 0%nat
          /\ ends_with (Log ERROR "Connection error: %s" [AExn e]) (trace (snd out)))
    /\ (startup env_online = Started -> fst out = Ret false ->
          ends_with (Log ERROR "Connection error: %s"
                         [AExn (Exception "Connection timeout")])
                    (trace (snd out))
          /\ (Qlt_bool (elapsed env_online n) connect_timeout = false
              \/ exists k rc, (k <= S n)%nat /\ rc <> 0
                              /\ In (OnConnect rc) (p_callbacks (polls env_online k))))
    /\ (forall k, (k < 200)%nat ->
                  Qlt_bool (elapsed env_online k) connect_timeout = false ->
                  fst out <> OutOfFuel).
Proof.
  split; [reflexivity|].
  apply (connect_outcome 200 env_online (initial_state None)). reflexivity.
Defined.

(** The broker's acceptance arrives at the third check: [connect] answers
    [True] after two sleeps of a tenth of a second. *)
Example connect_online_sample :
  connect 200 env_online (initial_state None)
  = (Ret true,
     mkState None true true false 0
       [Log INFO "Configuring TLS with:" [];
        Log INFO "  CA: %s" [AStr CA_PATH];
        Log INFO "  Cert: %s" [AStr CERT_PATH];
        Log INFO "  Key: %s" [AStr KEY_PATH];
        TlsSet CA_PATH CERT_PATH KEY_PATH;
        Log INFO "Connecting to %s..." [AStr ENDPOINT];
        NetConnect ENDPOINT 8883 60;
        LoopStart;
        Sleep connect_poll;
        Sleep connect_poll;
        Log INFO "Connected to AWS IoT Core" [];
        Log INFO "Publishing to topic: %s" [AStr TOPIC]]).
Proof. vm_compute. reflexivity. Qed.

(** C5 fails as stated: a silent broker, a broker that refuses the CONNECT
    (reason code 5), a failed TLS handshake and a client object that cannot
    be built are all answered with the same [False], and the refusal is
    reported as "Connection timeout"; the answer of [connect] therefore
    cannot name the kind of error. *)
Lemma connect_failures_share_one_answer :
  fst (connect 200 env_timeout (initial_state None)) = Ret false
  /\ fst (connect 200 env_rejected (initial_state None)) = Ret false
  /\ fst (connect 200 env_handshake (initial_state None)) = Ret false
  /\ fst (connect 200 env_no_client (initial_state None)) = Ret false
  /\ ends_with (Log ERROR "Connection error: %s"
                    [AExn (Exception "Connection timeout")])
               (trace (snd (connect 200 env_rejected (initial_state None))))
  /\ ~ (exists category : result bool -> ErrorCategory,
          category (fst (connect 200 env_timeout (initial_state None)))
          = ConnectTimeout
          /\ category (fst (connect 200 env_rejected (initial_state None)))
             = BrokerRejected 5
          /\ category (fst (connect 200 env_handshake (initial_state None)))
             = HandshakeError).
Proof.
  assert (H1 : fst (connect 200 env_timeout (initial_state None)) = Ret false)
    by (vm_compute; reflexivity).
  assert (H2 : fst (connect 200 env_rejected (initial_state None)) = Ret false)
    by (vm_compute; reflexivity).
  assert (H3 : fst (connect 200 env_handshake (initial_state None)) = Ret false)
    by (vm_compute; reflexivity).
  assert (H4 : fst (connect 200 env_no_client (initial_state None)) = Ret false)
    by (vm_compute; reflexivity).
  repeat split; trivial.
  - exists (removelast (trace (snd (connect 200 env_rejected (initial_state None))))).
    vm_compute. reflexivity.
  - intros (category & Hc1 & Hc2 & Hc3).
    rewrite H1 in Hc1. rewrite H2 in Hc2. congruence.
Qed.

(** ** Relations that every step of a computation respects *)

Section Respects.

Variable R : State -> State -> Prop.
Hypothesis R_refl : forall s, R s s.
Hypothesis R_trans : forall s1 s2 s3, R s1 s2 -> R s2 s3 -> R s1 s3.

Lemma respects_ret {A} (a : A) : respects R (ret a).
Proof. intros s. apply R_refl. Qed.

Lemma respects_raise {A} e : respects R (@raise A e).
Proof. intros s. apply R_refl. Qed.

Lemma respects_out_of_fuel {A} : respects R (@out_of_fuel A).
Proof. intros s. apply R_refl. Qed.

Lemma respects_call {A} (a : answer A) : respects R (call a).
Proof. destruct a; intros s; apply R_refl. Qed.

Lemma respects_bind {A B} (m : M A) (k : A -> M B) :
  respects R m -> (forall a, respects R (k a)) -> respects R (bind m k).
Proof.
  intros Hm Hk s. unfold bind. specialize (Hm s).
  destruct (m s) as [[a|e|] s1]; cbn [snd] in *; trivial.
  eapply R_trans; [exact Hm|apply Hk].
Qed.

Lemma respects_try_except {A} (m : M A) h :
  respects R m -> (forall e, respects R (h e)) -> respects R (try_except m h).
Proof.
  intros Hm Hh s. unfold try_except. specialize (Hm s).
  destruct (m s) as [[a|e|] s1]; cbn [snd] in *; trivial.
  destruct (is_Exception e); cbn [snd]; trivial.
  eapply R_trans; [exact Hm|apply Hh].
Qed.

Lemma respects_try_except2 {A} (m : M A) hk h :
  respects R m -> respects R hk -> (forall e, respects R (h e)) ->
  respects R (try_except2 m hk h).
Proof.
  intros Hm Hhk Hh s. unfold try_except2. specialize (Hm s).
  destruct (m s) as [[a|e|] s1]; cbn [snd] in *; trivial.
  destruct e; (eapply R_trans; [exact Hm|]); try apply Hh; apply Hhk.
Qed.

Lemma respects_try_finally {A} (m : M A) f :
  respects R m -> respects R f -> respects R (try_finally m f).
Proof.
  intros Hm Hf s. unfold try_finally. specialize (Hm s).
  destruct (m s) as [[a|e|] s1]; cbn [snd] in *; trivial;
    specialize (Hf s1); destruct (f s1) as [[u|e'|] s2]; cbn [snd] in *;
    eapply R_trans; eauto.
Qed.

Lemma respects_if {A} (b : bool) (m1 m2 : M A) :
  respects R m1 -> respects R m2 -> respects R (if b then m1 else m2).
Proof. destruct b; trivial. Qed.

End Respects.

Lemma log_grows_refl s : log_grows s s.
Proof. intros data H. exists []. now rewrite List.app_nil_r. Qed.

Lemma log_grows_trans s1 s2 s3 : log_grows s1 s2 -> log_grows s2 s3 -> log_grows s1 s3.
Proof.
  intros H12 H23 data H. destruct (H12 data H) as (m1 & H2).
  destruct (H23 _ H2) as (m2 & H3). exists (m1 ++ m2).
  now rewrite List.app_assoc.
Qed.

Lemma carries_on_refl s : carries_on s s.
Proof.
  repeat split; trivial using log_grows_refl.
  exists []. now rewrite List.app_nil_r.
Qed.

Lemma carries_on_trans s1 s2 s3 : carries_on s1 s2 -> carries_on s2 s3 -> carries_on s1 s3.
Proof.
  intros (Hc & Hb & (t & Ht & Hf) & Hl) (Hc' & Hb' & (t' & Ht' & Hf') & Hl').
  repeat split; try congruence.
  - exists (t ++ t'). rewrite Ht', Ht, filter_app, Hf, Hf', List.app_assoc. auto.
  - eapply log_grows_trans; eauto.
Qed.

Lemma carries_on_log_grows s s' : carries_on s s' -> log_grows s s'.
Proof. now intros (_ & _ & _ & H). Qed.

(** Adding actions other than a connection attempt, and setting the flag or
    the counter, carries on. *)
Lemma carries_on_update s b n t :
  filter is_connect t = [] ->
  carries_on s (mkState (csv_file s) b (client s) (iot_client_bound s) n
                        (trace s ++ t)).
Proof.
  intros Ht. repeat split; cbn; eauto.
  intros data H. exists []. now rewrite List.app_nil_r.
Qed.

Lemma quiet_no_connect t :
  forallb is_log_or_sleep t = true ->
  filter is_connect t = [] /\ filter is_publish t = [].
Proof.
  induction t as [|a t IH]; cbn; [auto|].
  intros H. apply andb_prop in H as [Ha Ht]. destruct (IH Ht) as [-> ->].
  destruct a; try discriminate; auto.
Qed.

Lemma carries_on_add_trace s t :
  filter is_connect t = [] -> carries_on s (add_trace s t).
Proof. intros Ht. now apply carries_on_update. Qed.

Lemma carries_on_emit a : is_connect a = false -> respects carries_on (emit a).
Proof.
  intros Ha s. rewrite emit_eq. apply carries_on_add_trace. cbn. now rewrite Ha.
Qed.

Lemma carries_on_log lvl fmt args : respects carries_on (log lvl fmt args).
Proof. now apply carries_on_emit. Qed.

Lemma carries_on_fields s s' :
  csv_file s' = csv_file s -> client s' = client s ->
  iot_client_bound s' = iot_client_bound s -> trace s' = trace s ->
  carries_on s s'.
Proof.
  intros Hcsv Hcl Hb Ht. repeat split; trivial.
  - exists []. now rewrite List.app_nil_r.
  - intros data H. exists []. now rewrite Hcsv, List.app_nil_r.
Qed.

Lemma carries_on_set_is_connected b : respects carries_on (set_is_connected b).
Proof. intros s. now apply carries_on_fields. Qed.

Lemma carries_on_set_message_count n : respects carries_on (set_message_count n).
Proof. intros s. now apply carries_on_fields. Qed.

Lemma carries_on_deliver cbs : respects carries_on (deliver cbs).
Proof.
  intros s. rewrite deliver_eq. unfold add_trace, set_flag. cbn.
  apply carries_on_update. apply quiet_no_connect, callback_logs_quiet.
Qed.

(** What [save_to_csv] leaves of a log that starts with the header. *)
Lemma saved_grows ce data l :
  exists more, saved ce data (Some l) = Some (l ++ more).
Proof.
  unfold saved. destruct (ce_open ce) as [u|e].
  - cbn [pieces]. eauto.
  - exists []. now rewrite List.app_nil_r.
Qed.

Lemma carries_on_saved s ce data :
  carries_on s (with_csv s (saved ce data (csv_file s))).
Proof.
  repeat split; cbn.
  - exists []. now rewrite List.app_nil_r.
  - intros l H. cbn. rewrite H.
    destruct (saved_grows ce data (Whole csv_header :: l)) as (more & ->).
    exists more. reflexivity.
Qed.

(** One step of splitting a computation along its combinators. *)
Ltac carry_step :=
  first [ apply (respects_bind carries_on carries_on_trans)
        | apply (respects_try_except carries_on carries_on_trans)
        | apply (respects_try_except2 carries_on carries_on_trans)
        | apply (respects_try_finally carries_on carries_on_trans)
        | apply (respects_ret carries_on carries_on_refl)
        | apply (respects_raise carries_on carries_on_refl)
        | apply (respects_out_of_fuel carries_on carries_on_refl)
        | apply (respects_call carries_on carries_on_refl)
        | apply carries_on_log
        | apply carries_on_emit; reflexivity
        | apply carries_on_set_is_connected
        | apply carries_on_set_message_count
        | apply carries_on_deliver
        | apply (respects_if carries_on)
        | (intros ?; apply carries_on_refl) ].

Lemma carries_on_sleep d b : respects carries_on (sleep d b).
Proof. unfold sleep. repeat (intros; carry_step). Qed.

Lemma carries_on_publish_message ce topic message :
  respects carries_on (publish_message ce topic message).
Proof. unfold publish_message, get_is_connected. repeat (intros; carry_step). Qed.

Lemma carries_on_save_to_csv ce data : respects carries_on (save_to_csv ce data).
Proof.
  intros s. rewrite save_to_csv_eq. cbv zeta.
  destruct (save_error ce) as [e|]; [destruct (is_Exception e)|]; cbn [snd];
    try apply carries_on_saved.
  eapply carries_on_trans; [apply carries_on_saved|].
  now apply carries_on_add_trace.
Qed.

(** Splits a computation into its steps and discharges those that are known
    to carry on. *)
Ltac carry :=
  repeat (intros;
          first [ apply carries_on_sleep
                | apply carries_on_publish_message
                | apply carries_on_save_to_csv
                | carry_step ]).

Lemma carries_on_submit ce payload : respects carries_on (submit ce payload).
Proof. unfold submit, get_message_count. carry. Qed.

Lemma carries_on_cycle ce : respects carries_on (cycle ce).
Proof.
  unfold cycle. repeat (intros; first [apply carries_on_submit | carry]).
Qed.

(** The publishing loop never attempts a connection, and it only adds to a
    log that starts with the header. *)
Lemma carries_on_main_loop fuel env : forall c, respects carries_on (main_loop fuel env c).
Proof.
  induction fuel as [|fuel IH]; intros c; cbn [main_loop].
  - apply (respects_out_of_fuel carries_on carries_on_refl).
  - apply (respects_bind carries_on carries_on_trans).
    + apply carries_on_cycle.
    + intros [|]; [apply IH|apply (respects_ret carries_on carries_on_refl)].
Qed.

Lemma carries_on_cleanup : respects carries_on cleanup.
Proof. unfold cleanup, disconnect, get_iot_client_bound, get_client. carry. Qed.

(** ** Start-up *)

Lemma validate_files_ok env s :
  missing_of env = [] ->
  validate_files env s
  = (Ret tt, add_trace s (found_in env file_checks
                          ++ [Log INFO "All certificate files verified" []])).
Proof. intros H. rewrite validate_files_eq, H. reflexivity. Qed.

(** What [setup_csv] does, case by case. *)
Lemma setup_csv_eq env s :
  setup_csv env s =
  let failed e s' :=
    if is_Exception e
    then (Raise e, add_trace s' [Log ERROR "Failed to create CSV file: %s" [AExn e]])
    else (Raise e, s') in
  match csv_file s with
  | Some _ =>
      (Ret tt, add_trace s [Log INFO "CSV file already exists: %s" [AStr CSV_FILE]])
  | None =>
      match csv_open env with
      | Throws e => failed e s
      | Ok _ =>
          match csv_write env with
          | Ok _ =>
              (Ret tt, add_trace (with_csv s (Some [Whole csv_header]))
                                 [Log INFO "Created new CSV file: %s" [AStr CSV_FILE]])
          | Throws e =>
              failed e (with_csv s (Some (torn csv_header (csv_kept env))))
          end
      end
  end.
Proof.
  unfold setup_csv, writerow. unfold bind at 1, get_csv.
  destruct (csv_file s) as [l|]; [reflexivity|].
  destruct (csv_open env) as [u|e]; [|destruct e; reflexivity].
  destruct (csv_write env) as [u'|e]; [reflexivity|].
  destruct e; reflexivity.
Qed.

Lemma setup_csv_ok env s :
  log_ready env (csv_file s) ->
  setup_csv env s
  = (Ret tt,
     add_trace (with_csv s (Some match csv_file s with
                                 | None => [Whole csv_header]
                                 | Some l => l
                                 end))
               [match csv_file s with
                | None => Log INFO "Created new CSV file: %s" [AStr CSV_FILE]
                | Some _ => Log INFO "CSV file already exists: %s" [AStr CSV_FILE]
                end]).
Proof.
  unfold log_ready. intros H. rewrite setup_csv_eq. cbv zeta.
  destruct s as [[l|] conn cl bnd cnt tr]; cbn in *.
  - reflexivity.
  - destruct (H eq_refl) as [-> ->]. reflexivity.
Qed.

(** A step that returns normally can be taken out of a [try] block. *)
Lemma try_block_step {A} (p : M unit) (m : M A) h f s s' :
  p s = (Ret tt, s') ->
  try_finally (try_except (p ;; m) h) f s = try_finally (try_except m h) f s'.
Proof.
  intros Hp. unfold try_finally, try_except, bind. now rewrite Hp.
Qed.

(** With the credentials in place and the log ready, [main] reaches
    [connect] in the state [client_state]. *)
Lemma main_reaches_connect fuel env csv :
  missing_of env = [] ->
  log_ready env csv ->
  main fuel env (initial_state csv)
  = main_from_connect fuel env (client_state env csv).
Proof.
  intros Hmiss Hcsv. unfold main, main_from_connect.
  rewrite (bind_ret _ _ _ _ _ (log_eq _ _ _ _)).
  rewrite (try_block_step _ _ _ _ _ _ (validate_files_ok _ _ Hmiss)).
  erewrite try_block_step by (apply setup_csv_ok; exact Hcsv).
  erewrite try_block_step by reflexivity.
  erewrite try_block_step by reflexivity.
  erewrite try_block_step by reflexivity.
  f_equal. unfold client_state, add_trace, with_csv, initial_state. cbn.
  rewrite <- !List.app_assoc. destruct csv; reflexivity.
Qed.

(** [connect] sets the client object when it can be built, may change the
    flag, and adds to the trace at most one connection attempt and no
    publish. *)
Lemma connect_frame fuel env s :
  exists b t,
    snd (connect fuel env s)
    = add_trace (set_flag (with_client s (is_ok (new_client env) || client s)) b) t
    /\ (length (filter is_connect t) <= 1)%nat
    /\ filter is_publish t = [].
Proof.
  rewrite connect_eq. unfold new_client. cbv zeta.
  destruct (startup env) as [e|e|e|]; cbn [is_ok orb].
  - destruct (is_Exception e); cbn [snd].
    + exists (is_connected s), [Log ERROR "Connection error: %s" [AExn e]].
      split; [destruct s; reflexivity|]. cbn. auto.
    + exists (is_connected s), [].
      split; [destruct s; unfold add_trace, set_flag, with_client; cbn;
              now rewrite List.app_nil_r|]. cbn. auto.
  - destruct e; cbn; eexists (is_connected s), _;
      (split; [rewrite ?add_trace_app; destruct s; reflexivity|]); cbn; auto.
  - destruct e; cbn; eexists (is_connected s), _;
      (split; [rewrite ?add_trace_app; destruct s; reflexivity|]); cbn; auto.
  - rewrite !add_trace_app. cbn [app].
    match goal with |- context [wait_for_connection fuel env 0 ?s0] => set (s3 := s0) end.
    destruct (wait_for_connection_frame fuel env 0 s3) as (b & t & Hw & Ht).
    apply quiet_no_connect in Ht as [Hc Hp].
    destruct (wait_for_connection fuel env 0 s3) as [[i|e|] s4]; cbn [snd] in Hw; subst s4.
    + rewrite deliver_eq. cbn [snd]. rewrite add_trace_set_flag.
      set (l := flat_map _ _).
      destruct (quiet_no_connect l (callback_logs_quiet _)) as [Hlc Hlp].
      cbn [is_connected add_trace set_flag].
      destruct (flag_after _ _); cbn [snd is_Exception].
      * eexists true, _. split.
        -- unfold s3. unfold add_trace, set_flag, with_client. cbn.
           rewrite <- !List.app_assoc. reflexivity.
        -- cbn. rewrite !filter_app, Hc, Hp, Hlc, Hlp. cbn. auto.
      * eexists false, _. split.
        -- unfold s3. unfold add_trace, set_flag, with_client. cbn.
           rewrite <- !List.app_assoc. reflexivity.
        -- cbn. rewrite !filter_app, Hc, Hp, Hlc, Hlp. cbn. auto.
    + destruct e; cbn [is_Exception snd]; eexists b, _; (split;
        [unfold s3; unfold add_trace, set_flag, with_client; cbn;
         rewrite <- ?List.app_assoc; reflexivity|]);
        cbn; rewrite ?filter_app, Hc, Hp; cbn; auto.
    + cbn [snd]. eexists b, _. split.
      * unfold s3. unfold add_trace, set_flag, with_client. cbn.
        rewrite <- ?List.app_assoc. reflexivity.
      * cbn. rewrite Hc, Hp. cbn. auto.
Qed.

(** ** No reconnection *)











(** When the client object cannot be built, [main] gives up without having
    touched the network at all. *)
Example main_without_client_sample :
  main 200 env_no_client (initial_state None)
  = (Ret tt,
     mkState (Some [Whole csv_header]) false false true 0
       [Log INFO "Starting AWS IoT Core Publisher" [];
        Log INFO "Found: %s" [AStr CA_PATH];
        Log INFO "Found: %s" [AStr CERT_PATH];
        Log INFO "Found: %s" [AStr KEY_PATH];
        Log INFO "All certificate files verified" [];
        Log INFO "Created new CSV file: %s" [AStr CSV_FILE];
        Log ERROR "Connection error: %s"
            [AExn (Exception "Unsupported callback API version")];
        Log ERROR "Failed to connect to AWS IoT Core" [];
        Log INFO "Publisher stopped" []]).
Proof. vm_compute. reflexivity. Qed.


(** ** The header of the CSV log *)

Lemma respects_weaken (R R' : State -> State -> Prop) {A} (m : M A) :
  (forall s s', R s s' -> R' s s') -> respects R m -> respects R' m.
Proof. intros H Hm s. apply H, Hm. Qed.

Lemma log_grows_connect fuel env : respects log_grows (connect fuel env).
Proof.
  intros s. destruct (connect_frame fuel env s) as (b & t & -> & _).
  intros data H. exists []. cbn. now rewrite H, List.app_nil_r.
Qed.

Lemma log_grows_main_from_connect fuel env :
  respects log_grows (main_from_connect fuel env).
Proof.
  assert (W : forall A (m : M A), respects carries_on m -> respects log_grows m).
  { intros A m. apply respects_weaken, carries_on_log_grows. }
  unfold main_from_connect.
  apply (respects_try_finally log_grows log_grows_trans);
    [|apply W, carries_on_cleanup].
  apply (respects_try_except log_grows log_grows_trans);
    [|intros e; apply W, carries_on_log].
  apply (respects_bind log_grows log_grows_trans); [apply log_grows_connect|].
  intros [|]; cbn [negb]; apply W; [|apply carries_on_log].
  apply (respects_bind carries_on carries_on_trans);
    [apply carries_on_set_message_count|intros _].
  apply (respects_bind carries_on carries_on_trans);
    [apply carries_on_log|intros _].
  apply carries_on_main_loop.
Qed.

(** What [main] does when the log file cannot be created: the file is absent
    when it cannot be opened, and holds what the failed write of the header
    left otherwise. *)
Lemma main_csv_create_fails_eq fuel env e :
  missing_of env = [] ->
  csv_open env = Throws e \/ csv_open env = Ok tt /\ csv_write env = Throws e ->
  main fuel env (initial_state None) =
  let t := Log INFO "Starting AWS IoT Core Publisher" [] :: found_in env file_checks
           ++ [Log INFO "All certificate files verified" []] in
  let s := with_csv (initial_state None)
                    match csv_open env with
                    | Throws _ => None
                    | Ok _ => Some (torn csv_header (csv_kept env))
                    end in
  if is_Exception e
  then (Ret tt,
        add_trace s (t ++ [Log ERROR "Failed to create CSV file: %s" [AExn e];
                           Log ERROR "Fatal error: %s" [AExn e];
                           Log INFO "Publisher stopped" []]))
  else (Raise e, add_trace s (t ++ [Log INFO "Publisher stopped" []])).
Proof.
  intros Hmiss He. unfold main.
  rewrite (bind_ret _ _ _ _ _ (log_eq _ _ _ _)).
  rewrite (try_block_step _ _ _ _ _ _ (validate_files_ok _ _ Hmiss)).
  unfold try_finally, try_except. unfold bind at 1. rewrite setup_csv_eq.
  cbn [add_trace initial_state csv_file]. cbv zeta.
  unfold cleanup, get_iot_client_bound.
  destruct He as [->|[-> ->]]; destruct e; mrun; reflexivity.
Qed.

(** C7.  The header is the row timestamp, device_id, temperature, humidity.
    On a start without a log file, [setup_csv] leaves no file when the file
    cannot be opened, a file with what the failed write got of the header,
    and nothing else, when the header cannot be written, and the file with
    the header as its only row otherwise; it returns normally in the last
    case only.  And whatever happens in the run of [main] that follows, the
    file is in the end absent (start-up stopped before or at its creation),
    or holds that remnant of the header and no data (start-up stopped at the
    failed write), or begins with the complete header, every data row
    standing after it. *)
Theorem fresh_log_starts_with_header fuel env :
  csv_header = [CStr "timestamp"; CStr "device_id"; CStr "temperature"; CStr "humidity"]
  /\ csv_file (snd (setup_csv env (initial_state None)))
     = match csv_open env, csv_write env with
       | Throws _, _ => None
       | Ok _, Ok _ => Some [Whole csv_header]
       | Ok _, Throws _ => Some (torn csv_header (csv_kept env))
       end
  /\ (fst (setup_csv env (initial_state None)) = Ret tt
      <-> csv_open env = Ok tt /\ csv_write env = Ok tt)
  /\ exists data,
       csv_file (snd (main fuel env (initial_state None)))
       = if is_nil (missing_of env) then
           match csv_open env, csv_write env with
           | Throws _, _ => None
           | Ok _, Ok _ => Some (Whole csv_header :: data)
           | Ok _, Throws _ => Some (torn csv_header (csv_kept env))
           end
         else None.
Proof.
  split; [reflexivity|]. split; [|split].
  - rewrite setup_csv_eq. cbn [initial_state csv_file]. cbv zeta.
    destruct (csv_open env) as [u|e]; [|destruct e; reflexivity].
    destruct (csv_write env) as [u'|e]; [reflexivity|]. destruct e; reflexivity.
  - rewrite setup_csv_eq. cbn [initial_state csv_file]. cbv zeta.
    destruct (csv_open env) as [[]|e].
    + destruct (csv_write env) as [[]|e]; [tauto|].
      destruct (is_Exception e); cbn;
        (split; [discriminate|intros [_ H]; discriminate]).
    + destruct (is_Exception e); cbn;
        (split; [discriminate|intros [H _]; discriminate]).
  - destruct (missing_of env) as [|m ms] eqn:Hmiss; cbn [is_nil].
    + destruct (csv_open env) as [[]|e] eqn:Ho.
      * destruct (csv_write env) as [[]|e] eqn:Hw.
        -- rewrite (main_reaches_connect fuel env None Hmiss (fun _ => conj Ho Hw)).
           destruct (log_grows_main_from_connect fuel env (client_state env None) []
                                                 eq_refl)
             as (more & Hmore).
           exists more. exact Hmore.
        -- exists []. rewrite (main_csv_create_fails_eq fuel env e Hmiss) by auto.
           cbv zeta. rewrite Ho. destruct (is_Exception e); reflexivity.
      * exists []. rewrite (main_csv_create_fails_eq fuel env e Hmiss) by auto.
        cbv zeta. rewrite Ho. destruct (is_Exception e); reflexivity.
    + exists []. rewrite main_missing_eq by congruence. cbv zeta.
      destruct (fs_listdir env) as [files|e]; [reflexivity|].
      destruct (is_Exception e); reflexivity.
Qed.

(** The header cannot be written after the file was created: the file stays,
    empty, and [main] stops. *)
Example header_write_fails_sample :
  main 5 env_disk_full (initial_state None)
  = (Ret tt,
     mkState (Some []) false false false 0
       [Log INFO "Starting AWS IoT Core Publisher" [];
        Log INFO "Found: %s" [AStr CA_PATH];
        Log INFO "Found: %s" [AStr CERT_PATH];
        Log INFO "Found: %s" [AStr KEY_PATH];
        Log INFO "All certificate files verified" [];
        Log ERROR "Failed to create CSV file: %s"
            [AExn (Exception "No space left on device")];
        Log ERROR "Fatal error: %s" [AExn (Exception "No space left on device")];
        Log INFO "Publisher stopped" []]).
Proof. vm_compute. reflexivity. Qed.

(** ** Sensor readings *)

Lemma round_half_even_error (x : Q) :
  (x - (1 # 2) <= inject_Z (round_half_even x) <= x + (1 # 2))%Q.
Proof.
  unfold round_half_even.
  pose proof (Qfloor_le x) as Hlo. pose proof (Qlt_floor x) as Hhi.
  rewrite inject_Z_plus in Hhi. change (inject_Z 1) with 1%Q in Hhi.
  set (f := Qfloor x) in *.
  destruct (Qcompare_spec (x - inject_Z f) (1 # 2)) as [He|Hl|Hg].
  - destruct (Z.even f); rewrite ?inject_Z_plus; change (inject_Z 1) with 1%Q; lra.
  - lra.
  - rewrite inject_Z_plus. change (inject_Z 1) with 1%Q. lra.
Qed.

Lemma round_half_even_between (a b : Z) (x : Q) :
  (inject_Z a <= x <= inject_Z b)%Q -> a <= round_half_even x <= b.
Proof.
  intros [Ha Hb]. unfold round_half_even.
  pose proof (Qfloor_le x) as Hlo.
  assert (Hfa : a <= Qfloor x).
  { rewrite <- (Qfloor_Z a). now apply Qfloor_resp_le. }
  assert (Hfb : Qfloor x <= b).
  { rewrite <- (Qfloor_Z b). now apply Qfloor_resp_le. }
  set (f := Qfloor x) in *.
  assert (Hup : (inject_Z f < x)%Q -> f + 1 <= b).
  { intros Hlt. assert (H : (inject_Z f < inject_Z b)%Q) by lra.
    rewrite <- Zlt_Qlt in H. lia. }
  destruct (Qcompare_spec (x - inject_Z f) (1 # 2)) as [He|Hl|Hg].
  - destruct (Z.even f); [lia|]. split; [lia|]. apply Hup. lra.
  - lia.
  - split; [lia|]. apply Hup. lra.
Qed.

Lemma within_bool_true lo hi x : within_bool lo hi x = true -> within lo hi x.
Proof.
  unfold within_bool, within. destruct x; try discriminate;
    intros H; apply andb_prop in H as [H1 H2]; split; now apply Qle_bool_iff.
Qed.

(** [round(x, ndigits)] of a float between two positive bounds that have
    [ndigits] decimals: the float nearest to a decimal number between the
    bounds that is off from [x] by at most half a unit of the last decimal. *)
Lemma py_round_decimal (ndigits : nat) (a b : Z) (x : float) :
  let scale := Z.to_pos (10 ^ Z.of_nat ndigits) in
  0 < a ->
  within (a # scale) (b # scale) x ->
  exists k, a <= k <= b
            /\ py_round x ndigits = nearest false k scale
            /\ (Qabs ((k # scale) - Q_of_float x) <= 1 # (2 * scale))%Q.
Proof.
  intros scale Ha Hx.
  destruct x as [s|s| |s m e]; cbn [within] in Hx.
  - exfalso. destruct Hx as [H _]. unfold Qle in H. cbn in H. lia.
  - contradiction.
  - contradiction.
  - set (x := S754_finite s m e) in *. destruct Hx as [Hlo Hhi].
    set (y := (Q_of_float x * inject_Z (Zpos scale))%Q).
    assert (Hy : (inject_Z a <= y <= inject_Z b)%Q).
    { unfold y. destruct (Q_of_float x) as [n d]. unfold Qle in *. cbn in *. nia. }
    pose proof (round_half_even_between a b y Hy) as [Hka Hkb].
    pose proof (round_half_even_error y) as [Hel Heh].
    exists (round_half_even y). split; [lia|]. split.
    + unfold py_round, x. fold x. fold scale. fold y.
      destruct (round_half_even y); [lia|reflexivity|lia].
    + set (k := round_half_even y) in *.
      apply Qabs_Qle_condition. unfold y in Hel, Heh.
      destruct (Q_of_float x) as [n d].
      unfold Qle, Qminus, Qplus, Qopp, Qmult, inject_Z in *. cbn in *. nia.
Qed.

(** The floats nearest to the numbers of hundredths between 22 and 30, and to
    the numbers of tenths between 35 and 65, lie in these ranges, and as
    close to the decimal number as half a unit in their last place. *)
Lemma hundredths_in_range k :
  2200 <= k <= 3000 ->
  within (22 # 1) (30 # 1) (nearest false k 100)
  /\ close_to (1 # 2 ^ 49) k 100 (nearest false k 100) = true.
Proof.
  intros Hk.
  assert (H : forallb (fun n => let k := 2200 + Z.of_nat n in
                                within_bool (22 # 1) (30 # 1) (nearest false k 100)
                                && close_to (1 # 2 ^ 49) k 100 (nearest false k 100))
                      (seq 0 801) = true) by (vm_compute; reflexivity).
  rewrite forallb_forall in H. specialize (H (Z.to_nat (k - 2200))).
  cbv zeta in H. replace (2200 + Z.of_nat (Z.to_nat (k - 2200))) with k in H by lia.
  destruct (andb_prop _ _ (H ltac:(apply in_seq; lia))) as [H1 H2].
  split; [now apply within_bool_true|exact H2].
Qed.

Lemma tenths_in_range k :
  350 <= k <= 650 ->
  within (35 # 1) (65 # 1) (nearest false k 10)
  /\ close_to (1 # 2 ^ 47) k 10 (nearest false k 10) = true.
Proof.
  intros Hk.
  assert (H : forallb (fun n => let k := 350 + Z.of_nat n in
                                within_bool (35 # 1) (65 # 1) (nearest false k 10)
                                && close_to (1 # 2 ^ 47) k 10 (nearest false k 10))
                      (seq 0 301) = true) by (vm_compute; reflexivity).
  rewrite forallb_forall in H. specialize (H (Z.to_nat (k - 350))).
  cbv zeta in H. replace (350 + Z.of_nat (Z.to_nat (k - 350))) with k in H by lia.
  destruct (andb_prop _ _ (H ltac:(apply in_seq; lia))) as [H1 H2].
  split; [now apply within_bool_true|exact H2].
Qed.

Lemma within_weaken lo hi lo' hi' x :
  (lo' <= lo)%Q -> (hi <= hi')%Q -> within lo hi x -> within lo' hi' x.
Proof.
  unfold within. intros Hlo Hhi. destruct x; trivial; intros [H1 H2]; split; lra.
Qed.


(** ** Rounding to binary64 keeps a value between two whole numbers *)

Lemma fexp_eq e : fexp prec emax e = Z.max (e - 53) (-1074).
Proof. reflexivity. Qed.

Lemma digits2_pos_bounds p :
  2 ^ (Zpos (digits2_pos p) - 1) <= Zpos p < 2 ^ Zpos (digits2_pos p).
Proof.
  induction p as [p IH|p IH|]; cbn [digits2_pos].
  - rewrite Pos2Z.inj_succ, (Pos2Z.inj_xI p).
    replace (Z.succ (Zpos (digits2_pos p)) - 1) with (Z.succ (Zpos (digits2_pos p) - 1)) by lia.
    rewrite !Z.pow_succ_r by lia. lia.
  - rewrite Pos2Z.inj_succ, (Pos2Z.inj_xO p).
    replace (Z.succ (Zpos (digits2_pos p)) - 1) with (Z.succ (Zpos (digits2_pos p) - 1)) by lia.
    rewrite !Z.pow_succ_r by lia. lia.
  - cbn. lia.
Qed.

Lemma mod_mul_split a b c :
  0 < b -> 0 < c -> a mod (b * c) = 0 -> a mod b = 0 /\ (a / b) mod c = 0.
Proof.
  intros Hb Hc H. apply Z.mod_divide in H as [k Hk]; try lia. subst a. split.
  - apply Z.mod_divide; try lia. exists (k * c). ring.
  - replace (k * (b * c)) with (k * c * b) by ring. rewrite Z.div_mul by lia.
    apply Z.mod_divide; try lia. exists k. ring.
Qed.

Lemma shr_1_spec mrs :
  0 <= shr_m mrs ->
  shr_m (shr_1 mrs) = shr_m mrs / 2
  /\ (exact_record mrs -> shr_m mrs mod 2 = 0 -> exact_record (shr_1 mrs)).
Proof.
  destruct mrs as [m r s]. unfold exact_record. cbn [shr_m shr_r shr_s].
  intros Hm. destruct m as [|[p|p|]|]; cbn [shr_1 shr_m shr_r shr_s]; try lia.
  - split; [reflexivity|]. intros [-> ->] _. auto.
  - split.
    + rewrite (Pos2Z.inj_xI p). apply Z.div_unique with 1; lia.
    + intros _ H. rewrite (Pos2Z.inj_xI p) in H.
      rewrite Z.add_comm, Z.mul_comm, Z.mod_add in H by lia. discriminate.
  - split.
    + rewrite (Pos2Z.inj_xO p). apply Z.div_unique with 0; lia.
    + intros [-> ->] _. auto.
  - split; [reflexivity|]. intros _ H. discriminate.
Qed.

Lemma shr_iter_spec p : forall mrs,
  0 <= shr_m mrs ->
  shr_m (iter_pos shr_1 p mrs) = shr_m mrs / 2 ^ Zpos p
  /\ (exact_record mrs -> shr_m mrs mod 2 ^ Zpos p = 0 ->
      exact_record (iter_pos shr_1 p mrs)).
Proof.
  induction p as [p IH|p IH|]; intros mrs Hm; cbn [iter_pos].
  - destruct (shr_1_spec mrs Hm) as [E1 X1].
    assert (H1 : 0 <= shr_m (shr_1 mrs)) by (rewrite E1; apply Z.div_pos; lia).
    destruct (IH _ H1) as [E2 X2].
    assert (Hp : 0 < 2 ^ Zpos p) by (apply Z.pow_pos_nonneg; lia).
    assert (H2 : 0 <= shr_m (iter_pos shr_1 p (shr_1 mrs))).
    { rewrite E2. apply Z.div_pos; lia. }
    destruct (IH _ H2) as [E3 X3].
    assert (Hpow : 2 ^ Zpos p~1 = 2 * (2 ^ Zpos p * 2 ^ Zpos p)).
    { rewrite (Pos2Z.inj_xI p). rewrite Z.pow_add_r, Z.pow_1_r by lia.
      replace (2 * Zpos p) with (Zpos p + Zpos p) by lia.
      rewrite Z.pow_add_r by lia. ring. }
    split.
    + rewrite E3, E2, E1, Hpow, !Z.div_div by lia. reflexivity.
    + intros Hx Hmod. rewrite Hpow in Hmod.
      apply mod_mul_split in Hmod as [Ha Hb]; try lia.
      apply mod_mul_split in Hb as [Hb Hc]; try lia.
      apply X3; [apply X2; [apply X1; trivial|]|].
      * rewrite E1. exact Hb.
      * rewrite E2, E1. exact Hc.
  - destruct (IH _ Hm) as [E2 X2].
    assert (Hp : 0 < 2 ^ Zpos p) by (apply Z.pow_pos_nonneg; lia).
    assert (H2 : 0 <= shr_m (iter_pos shr_1 p mrs)).
    { rewrite E2. apply Z.div_pos; lia. }
    destruct (IH _ H2) as [E3 X3].
    assert (Hpow : 2 ^ Zpos p~0 = 2 ^ Zpos p * 2 ^ Zpos p).
    { rewrite (Pos2Z.inj_xO p).
      replace (2 * Zpos p) with (Zpos p + Zpos p) by lia.
      rewrite Z.pow_add_r by lia. ring. }
    split.
    + rewrite E3, E2, Hpow, !Z.div_div by lia. reflexivity.
    + intros Hx Hmod. rewrite Hpow in Hmod.
      apply mod_mul_split in Hmod as [Ha Hb]; try lia.
      apply X3; [apply X2; trivial|]. rewrite E2. exact Hb.
  - change (2 ^ 1) with 2. apply shr_1_spec; trivial.
Qed.

Lemma round_nearest_even_spec mrs :
  let q := round_nearest_even (shr_m mrs) (loc_of_shr_record mrs) in
  shr_m mrs <= q <= shr_m mrs + 1 /\ (exact_record mrs -> q = shr_m mrs).
Proof.
  destruct mrs as [m [|] [|]]; unfold exact_record; cbn [shr_m shr_r shr_s loc_of_shr_record round_nearest_even].
  - split; [lia|]. intros [H _]; discriminate.
  - split; [destruct (Z.even m); lia|]. intros [H _]; discriminate.
  - split; [lia|]. intros [_ H]; discriminate.
  - split; [lia|]. reflexivity.
Qed.

Lemma shr_fexp_none m e :
  fexp prec emax (Zdigits2 m + e) - e <= 0 ->
  shr_fexp prec emax m e loc_Exact
  = ({| shr_m := m; shr_r := false; shr_s := false |}, e).
Proof.
  intros H. unfold shr_fexp, shr. cbn [shr_record_of_loc].
  destruct (fexp prec emax (Zdigits2 m + e) - e); trivial; lia.
Qed.

Lemma shr_fexp_some m e n :
  fexp prec emax (Zdigits2 m + e) - e = Zpos n ->
  shr_fexp prec emax m e loc_Exact
  = (iter_pos shr_1 n {| shr_m := m; shr_r := false; shr_s := false |}, e + Zpos n).
Proof.
  intros H. unfold shr_fexp, shr. cbn [shr_record_of_loc]. rewrite H. reflexivity.
Qed.

Lemma finish_between q e lo hi :
  0 <= q <= 2 ^ 53 -> -1074 <= e <= 0 -> hi < 2 ^ 53 ->
  lo * 2 ^ (- e) <= q <= hi * 2 ^ (- e) ->
  float_between lo hi (finish q e).
Proof.
  intros Hq He Hhi [HL HH]. unfold finish.
  assert (Hp : 0 < 2 ^ (- e)) by (apply Z.pow_pos_nonneg; lia).
  change (2 ^ 53) with 9007199254740992 in *.
  destruct q as [|qp|qp]; [| |lia].
  - rewrite shr_fexp_none by (rewrite fexp_eq; cbn [Zdigits2]; lia).
    cbn [shr_m float_between]. nia.
  - pose proof (digits2_pos_bounds qp) as [Hd1 Hd2].
    destruct (Z_le_gt_dec (Zpos (digits2_pos qp)) 53) as [Hd|Hd].
    + rewrite shr_fexp_none by (rewrite fexp_eq; cbn [Zdigits2]; lia).
      cbn [shr_m]. destruct (Z.leb_spec e (emax - prec)) as [_|H];
        [|unfold emax, prec in H; lia].
      cbn [float_between]. lia.
    + assert (H53 : 2 ^ 53 <= 2 ^ (Zpos (digits2_pos qp) - 1)).
      { apply Z.pow_le_mono_r; lia. }
      change (2 ^ 53) with 9007199254740992 in H53.
      assert (Hqp : qp = 9007199254740992%positive) by lia. subst qp.
      rewrite (shr_fexp_some _ _ 1) by (rewrite fexp_eq; cbn [Zdigits2 digits2_pos Pos.succ]; lia).
      cbn [iter_pos shr_1 shr_m orb].
      assert (He0 : e < 0).
      { destruct (Z.eq_dec e 0) as [->|]; [|lia]. change (2 ^ (- 0)) with 1 in HH. lia. }
      destruct (Z.leb_spec (e + 1) (emax - prec)) as [_|H];
        [|unfold emax, prec in H; lia].
      cbn [float_between]. split; [lia|].
      replace (- e) with (Z.succ (- (e + 1))) in HL, HH by lia.
      rewrite Z.pow_succ_r in HL, HH by lia. lia.
Qed.

Lemma binary_round_aux_between (M : positive) (E lo hi : Z) :
  E <= 0 -> 0 <= lo -> hi < 2 ^ 53 ->
  lo * 2 ^ (- E) <= Zpos M <= hi * 2 ^ (- E) ->
  float_between lo hi (binary_round_aux prec emax false (Zpos M) E loc_Exact).
Proof.
  intros HE Hlo Hhi [HL HH].
  pose proof (digits2_pos_bounds M) as [Hd1 Hd2].
  assert (HpE : 0 < 2 ^ (- E)) by (apply Z.pow_pos_nonneg; lia).
  assert (HdE : Zpos (digits2_pos M) + E <= 53).
  { assert (H : 2 ^ (Zpos (digits2_pos M) - 1) < 2 ^ (53 - E)).
    { replace (53 - E) with (53 + - E) by lia. rewrite Z.pow_add_r by lia. nia. }
    apply Z.pow_lt_mono_r_iff in H; lia. }
  change (binary_round_aux prec emax false (Zpos M) E loc_Exact)
    with (let '(mrs', e') := shr_fexp prec emax (Zpos M) E loc_Exact in
          finish (round_nearest_even (shr_m mrs') (loc_of_shr_record mrs')) e').
  set (e' := Z.max (Zpos (digits2_pos M) + E - 53) (-1074)).
  assert (He' : -1074 <= e' <= 0 /\ Zpos (digits2_pos M) + E - 53 <= e') by (unfold e'; lia).
  destruct (e' - E) as [|n|n] eqn:Hn.
  - rewrite shr_fexp_none by (rewrite fexp_eq; cbn [Zdigits2]; lia).
    cbn [shr_m loc_of_shr_record round_nearest_even].
    apply finish_between; trivial; try lia.
    assert (H : 2 ^ Zpos (digits2_pos M) <= 2 ^ 53) by (apply Z.pow_le_mono_r; lia).
    lia.
  - rewrite (shr_fexp_some _ _ n) by (rewrite fexp_eq; cbn [Zdigits2]; lia).
    set (r0 := {| shr_m := Zpos M; shr_r := false; shr_s := false |}).
    destruct (shr_iter_spec n r0 ltac:(cbn; lia)) as [Eq Ex].
    destruct (round_nearest_even_spec (iter_pos shr_1 n r0)) as [[Q1 Q2] Q3].
    cbv zeta in Q1, Q2, Q3.
    set (q' := round_nearest_even _ _) in *.
    rewrite Eq in Q1, Q2, Q3. cbn [r0 shr_m] in *.
    assert (Hpn : 0 < 2 ^ Zpos n) by (apply Z.pow_pos_nonneg; lia).
    assert (HEn : E + Zpos n = e') by lia.
    assert (Hsplit : 2 ^ (- E) = 2 ^ (- e') * 2 ^ Zpos n).
    { rewrite <- Z.pow_add_r by lia. f_equal. lia. }
    assert (Hpe : 0 < 2 ^ (- e')) by (apply Z.pow_pos_nonneg; lia).
    rewrite HEn.
    assert (Hq53 : Zpos M / 2 ^ Zpos n < 2 ^ 53).
    { apply Z.div_lt_upper_bound; trivial.
      assert (H : 2 ^ Zpos (digits2_pos M) <= 2 ^ (Zpos n + 53)) by (apply Z.pow_le_mono_r; lia).
      rewrite Z.pow_add_r in H by lia. lia. }
    assert (Hq0 : 0 <= Zpos M / 2 ^ Zpos n) by (apply Z.div_pos; lia).
    assert (HqL : lo * 2 ^ (- e') <= Zpos M / 2 ^ Zpos n).
    { apply Z.div_le_lower_bound; trivial. rewrite Hsplit in HL. lia. }
    assert (HqH : Zpos M / 2 ^ Zpos n <= hi * 2 ^ (- e')).
    { apply Z.div_le_upper_bound; trivial. rewrite Hsplit in HH. lia. }
    apply finish_between; trivial; try lia.
    split; [lia|].
    destruct (Z.eq_dec (Zpos M / 2 ^ Zpos n) (hi * 2 ^ (- e'))) as [Heq|Hne]; [|lia].
    rewrite Q3; [lia|]. apply Ex; [split; reflexivity|].
    cbn [r0 shr_m].
    pose proof (Z.div_mod (Zpos M) (2 ^ Zpos n) ltac:(lia)) as Hdm.
    pose proof (Z.mod_pos_bound (Zpos M) (2 ^ Zpos n) Hpn) as Hmb.
    rewrite Heq in Hdm. rewrite Hsplit in HH. nia.
  - rewrite shr_fexp_none by (rewrite fexp_eq; cbn [Zdigits2]; lia).
    cbn [shr_m loc_of_shr_record round_nearest_even].
    apply finish_between; trivial; try lia.
    assert (H : 2 ^ Zpos (digits2_pos M) <= 2 ^ 53) by (apply Z.pow_le_mono_r; lia).
    lia.
Qed.

Lemma shl_align_fst m e e' :
  e' <= e -> Zpos (fst (shl_align m e e')) = Zpos m * 2 ^ (e - e').
Proof.
  intros H. unfold shl_align. destruct (e' - e) as [|d|d] eqn:Hd; cbn [fst]; try lia.
  - replace (e - e') with 0 by lia. lia.
  - change (Pos.iter xO m d) with (shift_pos d m).
    rewrite shift_pos_correct, Z.pow_pos_fold.
    replace (e - e') with (Zpos d) by lia. ring.
Qed.

Lemma shl_align_snd m e e' : snd (shl_align m e e') = Z.min e e'.
Proof.
  unfold shl_align. destruct (e' - e) as [|d|d] eqn:Hd; cbn [snd]; lia.
Qed.

Lemma binary_round_between (M : positive) (E lo hi : Z) :
  E <= 0 -> 0 <= lo -> hi < 2 ^ 53 ->
  lo * 2 ^ (- E) <= Zpos M <= hi * 2 ^ (- E) ->
  float_between lo hi (binary_round prec emax false M E).
Proof.
  intros HE Hlo Hhi [HL HH]. unfold binary_round.
  set (e' := fexp prec emax (Zpos (digits2_pos M) + E)).
  pose proof (shl_align_snd M E e') as Hs.
  destruct (shl_align M E e') as [mz ez] eqn:Halign. cbn [fst snd] in *.
  assert (Hz : Zpos mz = Zpos M * 2 ^ (E - ez)).
  { subst ez. unfold shl_align in *.
    destruct (e' - E) as [|d|d] eqn:Hd.
    - injection Halign as <- _. replace (E - Z.min E e') with 0 by lia. lia.
    - injection Halign as <- _. replace (E - Z.min E e') with 0 by lia. lia.
    - injection Halign as <- _.
      change (Pos.iter xO M d) with (shift_pos d M).
      rewrite shift_pos_correct, Z.pow_pos_fold.
      replace (E - Z.min E e') with (Zpos d) by lia. ring. }
  assert (Hsplit : 2 ^ (- ez) = 2 ^ (- E) * 2 ^ (E - ez)).
  { rewrite <- Z.pow_add_r by lia. f_equal. lia. }
  assert (Hp : 0 < 2 ^ (E - ez)) by (apply Z.pow_pos_nonneg; lia).
  apply binary_round_aux_between; trivial; try lia.
  rewrite Hz, Hsplit. nia.
Qed.

Lemma unit_draw_cases u :
  unit_draw u ->
  (exists s, u = S754_zero s)
  \/ exists m e, u = S754_finite false m e /\ e < 0 /\ Zpos m < 2 ^ (- e).
Proof.
  intros [Hw Hlt]. destruct u as [s|s| |s m e]; cbn [within] in Hw; try contradiction.
  - left. now exists s.
  - right. destruct Hw as [H0 _]. exists m, e.
    destruct s.
    + exfalso. unfold Q_of_float in H0. destruct e as [|p|p];
        unfold Qle, Qopp in H0; cbn [Qnum Qden] in H0;
        try pose proof (Z.pow_pos_nonneg 2 (Zpos p) ltac:(lia) ltac:(lia)); nia.
    + split; [reflexivity|]. unfold Q_of_float in Hlt.
      destruct e as [|p|p]; unfold Qlt in Hlt; cbn [Qnum Qden] in Hlt.
      * lia.
      * pose proof (Z.pow_pos_nonneg 2 (Zpos p) ltac:(lia) ltac:(lia)). nia.
      * split; [lia|]. rewrite Pos2Z.inj_pow in Hlt.
        change (- Zneg p) with (Zpos p). lia.
Qed.

Lemma fmul_between c u C :
  float_between C C c -> 0 < C < 2 ^ 53 -> unit_draw u ->
  float_between 0 C (fmul c u).
Proof.
  intros Hc HC Hu.
  destruct c as [s|s| |[|] mc ec]; cbn [float_between] in Hc; try contradiction; try lia.
  destruct Hc as [Hec Hmc].
  destruct (unit_draw_cases u Hu) as [[s ->]|(mu & eu & -> & Heu & Hmu)].
  - cbn. lia.
  - unfold fmul, SFmul. cbn [xorb].
    assert (Hp1 : 0 < 2 ^ (- ec)) by (apply Z.pow_pos_nonneg; lia).
    assert (Hp2 : 0 < 2 ^ (- eu)) by (apply Z.pow_pos_nonneg; lia).
    apply binary_round_aux_between; try lia.
    rewrite Pos2Z.inj_mul.
    replace (- (ec + eu)) with (- ec + - eu) by lia.
    rewrite Z.pow_add_r by lia. nia.
Qed.

Lemma fadd_between a y A C :
  float_between A A a -> float_between 0 C y -> 0 < A -> A + C < 2 ^ 53 ->
  float_between A (A + C) (fadd a y).
Proof.
  intros Ha Hy HA HAC.
  destruct a as [s|s| |[|] ma ea]; cbn [float_between] in Ha; try contradiction; try lia.
  destruct Ha as [Hea Hma].
  assert (Hpa : 0 < 2 ^ (- ea)) by (apply Z.pow_pos_nonneg; lia).
  destruct y as [s|s| |[|] my ey]; cbn [float_between] in Hy; try contradiction.
  - cbn [fadd SFadd float_between]. unfold fadd, SFadd. cbn [float_between]. nia.
  - destruct Hy as [Hey Hmy].
    assert (Hpy : 0 < 2 ^ (- ey)) by (apply Z.pow_pos_nonneg; lia).
    unfold fadd, SFadd. cbn [cond_Zopp].
    set (ez := Z.min ea ey).
    pose proof (shl_align_fst ma ea ez ltac:(lia)) as H1.
    pose proof (shl_align_fst my ey ez ltac:(lia)) as H2.
    set (m1 := fst (shl_align ma ea ez)) in *.
    set (m2 := fst (shl_align my ey ez)) in *.
    change (Zpos m1 + Zpos m2) with (Zpos (m1 + m2)).
    cbn [binary_normalize].
    assert (Hs1 : 2 ^ (- ez) = 2 ^ (- ea) * 2 ^ (ea - ez)).
    { rewrite <- Z.pow_add_r by lia. f_equal. lia. }
    assert (Hs2 : 2 ^ (- ez) = 2 ^ (- ey) * 2 ^ (ey - ez)).
    { rewrite <- Z.pow_add_r by lia. f_equal. lia. }
    assert (Hq1 : 0 < 2 ^ (ea - ez)) by (apply Z.pow_pos_nonneg; lia).
    assert (Hq2 : 0 < 2 ^ (ey - ez)) by (apply Z.pow_pos_nonneg; lia).
    assert (HC : 0 <= C) by nia.
    apply binary_round_between; try lia.
    rewrite Pos2Z.inj_add, H1, H2. split.
    + rewrite Hs1. nia.
    + rewrite Z.mul_add_distr_r. rewrite Hs1 at 1. rewrite Hs2. nia.
Qed.

Lemma float_between_within lo hi x :
  0 < lo -> float_between lo hi x -> within (inject_Z lo) (inject_Z hi) x.
Proof.
  intros Hlo. destruct x as [s|s| |[|] m e]; cbn [float_between within]; try contradiction; try lia.
  intros [He [HL HH]]. unfold Q_of_float.
  destruct e as [|p|p]; try lia; unfold Qle, inject_Z; cbn [Qnum Qden].
  - change (2 ^ (- 0)) with 1 in *. lia.
  - change (- Zneg p) with (Zpos p) in *. rewrite Pos2Z.inj_pow. lia.
Qed.

(** [random.uniform(a, b)] with whole numbers [0 < a < b]: the result lies
    between them, both ends included. *)
Lemma uniform_between a b u A B :
  float_between A A a -> float_between (B - A) (B - A) (fsub b a) ->
  0 < A < B -> B < 2 ^ 53 -> unit_draw u ->
  float_between A B (uniform a b u).
Proof.
  intros Ha Hc HAB HB Hu. unfold uniform.
  replace B with (A + (B - A)) at 1 by lia.
  apply fadd_between; trivial; try lia.
  apply fmul_between; trivial. lia.
Qed.

Lemma temperature_draw_in_range u :
  unit_draw u -> within (22 # 1) (30 # 1) (uniform (fst TEMP_RANGE) (snd TEMP_RANGE) u).
Proof.
  intros Hu. apply (float_between_within 22 30); [lia|].
  apply uniform_between; trivial; try lia; vm_compute; easy.
Qed.

Lemma humidity_draw_in_range u :
  unit_draw u -> within (35 # 1) (65 # 1) (uniform (fst HUMIDITY_RANGE) (snd HUMIDITY_RANGE) u).
Proof.
  intros Hu. apply (float_between_within 35 65); [lia|].
  apply uniform_between; trivial; try lia; vm_compute; easy.
Qed.

(** C10.  With draws of [random.random()] in [0, 1), both values that
    [random.uniform] returns lie in the ranges asked for, ends included; the
    temperature is the float nearest to a number of hundredths between
    22.00 and 30.00 that differs from the drawn value by at most 0.005, and
    the humidity the float nearest to a number of tenths between 35.0 and
    65.0 that differs from the drawn value by at most 0.05; both floats lie
    in the ranges themselves, within 2^-49 and 2^-47 of the decimal number;
    and [create_payload] copies both into the payload as they are. *)
Theorem sensor_data_in_range (u_t u_h : float) :
  unit_draw u_t -> unit_draw u_h ->
  let sd := generate_sensor_data u_t u_h in
  within (22 # 1) (30 # 1) (uniform (fst TEMP_RANGE) (snd TEMP_RANGE) u_t)
  /\ within (35 # 1) (65 # 1) (uniform (fst HUMIDITY_RANGE) (snd HUMIDITY_RANGE) u_h)
  /\ (within (22 # 1) (30 # 1) (sd_temperature sd)
   /\ exists k, 2200 <= k <= 3000
        /\ sd_temperature sd = nearest false k 100
        /\ (Qabs ((k # 100)
                  - Q_of_float (uniform (fst TEMP_RANGE) (snd TEMP_RANGE) u_t)) <= 1 # 200)%Q
        /\ (Qabs (Q_of_float (sd_temperature sd) - (k # 100)) <= 1 # 2 ^ 49)%Q)
  /\ (within (35 # 1) (65 # 1) (sd_humidity sd)
      /\ exists k, 350 <= k <= 650
           /\ sd_humidity sd = nearest false k 10
           /\ (Qabs ((k # 10)
                     - Q_of_float (uniform (fst HUMIDITY_RANGE) (snd HUMIDITY_RANGE) u_h))
               <= 1 # 20)%Q
           /\ (Qabs (Q_of_float (sd_humidity sd) - (k # 10)) <= 1 # 2 ^ 47)%Q)
  /\ forall device utcnow_iso now r,
       temperature (create_payload device sd utcnow_iso now r) = sd_temperature sd
       /\ humidity (create_payload device sd utcnow_iso now r) = sd_humidity sd.
Proof.
  intros Ut Uh sd. subst sd. unfold generate_sensor_data.
  pose proof (temperature_draw_in_range u_t Ut) as Ht.
  pose proof (humidity_draw_in_range u_h Uh) as Hh.
  split; [exact Ht|]. split; [exact Hh|].
  cbn [sd_temperature sd_humidity].
  set (x_t := uniform (fst TEMP_RANGE) (snd TEMP_RANGE) u_t) in *.
  set (x_h := uniform (fst HUMIDITY_RANGE) (snd HUMIDITY_RANGE) u_h) in *.
  destruct (py_round_decimal 2 2200 3000 x_t) as (kt & Hkt & Et & Dt); [lia| |].
  { apply within_weaken with (3 := Ht); unfold Qle; cbn; lia. }
  destruct (py_round_decimal 1 350 650 x_h) as (kh & Hkh & Eh & Dh); [lia| |].
  { apply within_weaken with (3 := Hh); unfold Qle; cbn; lia. }
  change (Z.to_pos (10 ^ Z.of_nat 2)) with 100%positive in *.
  change (Z.to_pos (10 ^ Z.of_nat 1)) with 10%positive in *.
  destruct (hundredths_in_range kt Hkt) as [Rt Ct].
  destruct (tenths_in_range kh Hkh) as [Rh Ch].
  rewrite Et, Eh. split; [|split].
  - split; [exact Rt|]. exists kt. repeat split; try lia; trivial.
    now apply Qle_bool_iff.
  - split; [exact Rh|]. exists kh. repeat split; try lia; trivial.
    now apply Qle_bool_iff.
  - intros. split; reflexivity.
Qed.

Lemma sensor_data_in_range_witness :
  unit_draw (random_float (2 ^ 47 + 1)) /\ unit_draw half /\
  let sd := generate_sensor_data (random_float (2 ^ 47 + 1)) half in
  within (22 # 1) (30 # 1) (sd_temperature sd)
  /\ within (35 # 1) (65 # 1) (sd_humidity sd).
Proof.
  assert (Ht : unit_draw (random_float (2 ^ 47 + 1))) by (split; vm_compute; easy).
  assert (Hh : unit_draw half) by (split; vm_compute; easy).
  split; [exact Ht|]. split; [exact Hh|].
  destruct (sensor_data_in_range _ _ Ht Hh) as (_ & _ & [Rt _] & [Rh _] & _).
  split; [exact Rt|exact Rh].
Defined.

(** The draw 1/64 + 2^-53 gives 22.125 exactly, which [round] takes to
    22.12, the even neighbour; the float written 22.12 is not the decimal
    number itself. *)
Example generate_sensor_data_sample :
  uniform (fst TEMP_RANGE) (snd TEMP_RANGE) (random_float (2 ^ 47 + 1))
  = S754_finite false 6227633859723264 (-48)
  /\ Q_of_float (S754_finite false 6227633859723264 (-48)) == 22125 # 1000
  /\ generate_sensor_data (random_float (2 ^ 47 + 1)) half
     = {| sd_temperature := nearest false 2212 100;
          sd_humidity := float_of_Z 50 |}
  /\ nearest false 2212 100 = S754_finite false 6226226484839711 (-48)
  /\ ~ Q_of_float (nearest false 2212 100) == 2212 # 100.
Proof.
  repeat split; try (vm_compute; reflexivity). vm_compute. discriminate.
Qed.

Example round_half_even_ties :
  round_half_even (5 # 2) = 2 /\ round_half_even (7 # 2) = 4
  /\ round_half_even (-5 # 2) = -2.
Proof. repeat split. Qed.

(** ** Message identifiers *)

Example str_of_Z_samples :
  str_of_Z 0 = "0" /\ str_of_Z 1700000000 = "1700000000" /\ str_of_Z (-12) = "-12".
Proof. repeat split. Qed.

Example make_message_id_sample :
  make_message_id (3400000001 # 2) 1234 = "msg_1700000000_1234".
Proof. reflexivity. Qed.

Lemma Z_of_str_of_Z n : Z_of_str (str_of_Z n) = Some n.
Proof.
  unfold Z_of_str, str_of_Z. rewrite NilEmpty.isi. cbn.
  now rewrite DecimalZ.of_to.
Qed.

Lemma str_of_Z_inj n n' : str_of_Z n = str_of_Z n' -> n = n'.
Proof.
  intros H. apply (f_equal Z_of_str) in H. rewrite !Z_of_str_of_Z in H.
  now injection H.
Qed.

Lemma string_of_uint_no_underscore d :
  has_char "_" (NilEmpty.string_of_uint d) = false.
Proof. induction d; cbn; trivial. Qed.

Lemma str_of_Z_no_underscore n : has_char "_" (str_of_Z n) = false.
Proof.
  unfold str_of_Z. destruct (Z.to_int n); cbn;
    apply string_of_uint_no_underscore.
Qed.

(** A text without underscore, an underscore, and a rest: the split is
    unique. *)
Lemma split_at_underscore a : forall a' b b',
  has_char "_" a = false -> has_char "_" a' = false ->
  (a ++ String "_" b)%string = (a' ++ String "_" b')%string ->
  a = a' /\ b = b'.
Proof.
  induction a as [|c a IH]; intros [|c' a'] b b' Ha Ha' H; cbn in *.
  - injection H as ->. auto.
  - injection H as <- _. cbn in Ha'. discriminate.
  - injection H as -> _. cbn in Ha. discriminate.
  - injection H as -> H.
    apply orb_false_elim in Ha as [_ Ha]. apply orb_false_elim in Ha' as [_ Ha'].
    destruct (IH _ _ _ Ha Ha' H) as [-> ->]. auto.
Qed.

Lemma id_text_inj a b a' b' :
  ("msg_" ++ str_of_Z a ++ "_" ++ str_of_Z b)%string
  = ("msg_" ++ str_of_Z a' ++ "_" ++ str_of_Z b')%string ->
  a = a' /\ b = b'.
Proof.
  intros H. cbn in H. injection H as H.
  apply split_at_underscore in H; try apply str_of_Z_no_underscore.
  destruct H as [H1 H2]. split; now apply str_of_Z_inj.
Qed.

Lemma make_message_id_inj now r now' r' :
  make_message_id now r = make_message_id now' r' <->
  int_of_float now = int_of_float now' /\ r = r'.
Proof.
  unfold make_message_id. split.
  - apply id_text_inj.
  - now intros [-> ->].
Qed.

Lemma four_digit_discriminator r :
  1000 <= r <= 9999 -> four_digits (str_of_Z r) = true.
Proof.
  intros Hr.
  assert (H : forallb (fun n => four_digits (str_of_Z (1000 + Z.of_nat n)))
                      (seq 0 (Z.to_nat 9000)) = true) by (vm_compute; reflexivity).
  rewrite forallb_forall in H.
  specialize (H (Z.to_nat (r - 1000))).
  replace (1000 + Z.of_nat (Z.to_nat (r - 1000))) with r in H by lia.
  apply H, in_seq. lia.
Qed.

Lemma NoDup_map_inj {A B} (f : A -> B) l :
  (forall x y, In x l -> In y l -> f x = f y -> x = y) ->
  NoDup l -> NoDup (map f l).
Proof.
  intros Hinj Hnd. induction Hnd as [|x l Hx Hnd IH]; cbn; constructor.
  - intros Hin. apply in_map_iff in Hin as (y & Hy & Hin).
    assert (y = x) by (apply Hinj; cbn; auto). subst. contradiction.
  - apply IH. intros a b Ha Hb. apply Hinj; cbn; auto.
Qed.

(** C6, as the code has it.  The id reads msg_, the epoch second in decimal,
    an underscore and the discriminator in four decimal digits; two ids are
    equal exactly when the epoch second and the discriminator are both
    equal; hence events whose pairs of second and discriminator are all
    different get ids that are all different. *)
Theorem message_id_format_and_collisions device sensor_data utcnow_iso now r :
  1000 <= r <= 9999 ->
  (exists seconds discriminator,
      message_id (create_payload device sensor_data utcnow_iso now r)
      = ("msg_" ++ seconds ++ "_" ++ discriminator)%string
      /\ Z_of_str seconds = Some (int_of_float now)
      /\ Z_of_str discriminator = Some r
      /\ four_digits discriminator = true)
  /\ (forall now' r',
        message_id (create_payload device sensor_data utcnow_iso now r)
        = message_id (create_payload device sensor_data utcnow_iso now' r')
        <-> int_of_float now = int_of_float now' /\ r = r')
  /\ (forall inputs, NoDup (map id_key inputs) -> NoDup (map id_of inputs)).
Proof.
  intros Hr. split; [|split].
  - exists (str_of_Z (int_of_float now)), (str_of_Z r).
    repeat split; auto using Z_of_str_of_Z, four_digit_discriminator.
  - intros now' r'. apply make_message_id_inj.
  - intros inputs Hnd.
    assert (Hid : map id_of inputs
                  = map (fun k => ("msg_" ++ str_of_Z (fst k) ++ "_" ++ str_of_Z (snd k))%string)
                        (map id_key inputs)).
    { rewrite map_map. reflexivity. }
    rewrite Hid. apply NoDup_map_inj; trivial.
    intros [a b] [a' b'] _ _ H. cbn [fst snd] in H.
    apply id_text_inj in H. destruct H as [-> ->]. reflexivity.
Qed.

Lemma message_id_format_and_collisions_witness :
  1000 <= 1234 <= 9999 /\
  (exists seconds discriminator,
      message_id sample_payload = ("msg_" ++ seconds ++ "_" ++ discriminator)%string
      /\ Z_of_str seconds = Some 1700000000
      /\ Z_of_str discriminator = Some 1234
      /\ four_digits discriminator = true).
Proof.
  split; [lia|].
  apply (message_id_format_and_collisions
           CLIENT_ID (generate_sensor_data half half)
           "2024-01-01T00:00:00" (1700000000 # 1) 1234).
  lia.
Defined.

(** C6 fails as stated: among these ten thousand events, the first two are
    built in the same second with the same discriminator and get the same
    id. *)
Lemma message_ids_collide_within_a_second :
  Z.of_nat (length burst) = 10000
  /\ forallb (fun input => (1000 <=? snd input) && (snd input <=? 9999)) burst = true
  /\ id_of ((1700000000 # 1)%Q, 1234) = "msg_1700000000_1234"
  /\ id_of ((3400000001 # 2)%Q, 1234) = "msg_1700000000_1234"
  /\ ~ NoDup (map id_of burst).
Proof.
  split; [vm_compute; reflexivity|]. split; [vm_compute; reflexivity|].
  split; [reflexivity|]. split; [reflexivity|].
  unfold burst. cbn [map]. intros H.
  apply NoDup_cons_iff in H. destruct H as [Hnotin _].
  apply Hnotin. left. reflexivity.
Qed.
